(** * Nearest-supplier lookup of [sustainable_procurement/api.py]

    A shallow embedding of the three functions of the module,
    [get_coordinates_from_geojson], [get_nearest_supplier] and
    [haversine_distance], together with the properties stated about them.

    Python values are modelled as the decoded-JSON data type [json]; Python
    exceptions as the type [exn] carried by the error monad [result]; Python
    floats as IEEE-754 binary64 numbers, using the executable specification
    [SpecFloat] of the standard library (precision 53, maximal exponent 1024).
    The functions the module imports from outside the repository are
    parameters: the decoder [json.loads], the C library behind [math.sin],
    [math.cos], [math.asin] and the float power, and the [frappe] site
    (record store and error log). *)

From Stdlib Require Import ZArith List String Ascii Bool Lia.
From Stdlib Require Import Floats.SpecFloat.
From Stdlib Require Import Sorting.Permutation.
Import ListNotations.
Local Open Scope string_scope.
Local Open Scope list_scope.
Local Open Scope Z_scope.

Set Implicit Arguments.
Local Set Warnings "-register-all".

(** ** Exceptions and the error monad *)

(** The exception classes that the module can meet.  All of them derive from
    Python's [Exception], the class both [except] clauses of the module name;
    [OtherException] stands for any further subclass raised by a collaborator
    (a database error, a [RecursionError] of the decoder, ...). *)
Inductive exn : Type :=
| JSONDecodeError (msg : string)
| AttributeError (msg : string)
| TypeError (msg : string)
| KeyError (key : string)
| ValueError (msg : string)
| OverflowError (msg : string)
| OtherException (cls msg : string).

(** [str(e)], as interpolated into the log messages. *)
Definition exn_str (e : exn) : string :=
  match e with
  | JSONDecodeError m | AttributeError m | TypeError m
  | ValueError m | OverflowError m | OtherException _ m => m
  | KeyError k => ("'" ++ k ++ "'")%string
  end.

Inductive result (A : Type) : Type :=
| Return (a : A)
| Raise (e : exn).
Arguments Return {A} a.
Arguments Raise {A} e.

Definition bind {A B : Type} (r : result A) (k : A -> result B) : result B :=
  match r with
  | Return a => k a
  | Raise e => Raise e
  end.

Notation "x <- r ;; k" := (bind r (fun x => k))
  (at level 61, r at next level, right associativity).

(** ** Python floats *)

Module PyFloat.

Definition prec : Z := 53.
Definition emax : Z := 1024.

Definition float : Type := spec_float.

Definition add : float -> float -> float := SFadd prec emax.
Definition sub : float -> float -> float := SFsub prec emax.
Definition mul : float -> float -> float := SFmul prec emax.
Definition div : float -> float -> float := SFdiv prec emax.
Definition sqrt : float -> float := SFsqrt prec emax.
Definition ltb : float -> float -> bool := SFltb.
Definition leb : float -> float -> bool := SFleb.
Definition eqb : float -> float -> bool := SFeqb.

Definition zero : float := S754_zero false.
Definition inf : float := S754_infinity false.
Definition nan : float := S754_nan.

(** The float nearest to an integer, ties to even; an infinity when the
    integer is out of range. *)
Definition of_Z (n : Z) : float := binary_normalize prec emax n 0 false.

Definition one : float := Eval vm_compute in of_Z 1.
Definition two : float := Eval vm_compute in of_Z 2.

Definition is_nan (x : float) : bool :=
  match x with S754_nan => true | _ => false end.
Definition is_inf (x : float) : bool :=
  match x with S754_infinity _ => true | _ => false end.
Definition is_finite (x : float) : bool :=
  match x with S754_zero _ | S754_finite _ _ _ => true | _ => false end.

(** A well-formed double: the mantissa and the exponent of a finite number
    are those of its unique binary64 representation. *)
Definition double (x : float) : bool := valid_binary prec emax x.

(** A mantissa of at most [prec] bits and an exponent in range, as every
    rounded result has them. *)
Definition bounded_float (x : float) : bool :=
  match x with
  | S754_finite _ m e => (Z.pos (digits2_pos m) <=? prec) && (e <=? emax - prec)
  | _ => true
  end.

(** [0.0 <= x]: a zero, a positive number or [+inf]; never a NaN. *)
Definition nonneg (x : float) : bool := leb zero x.

(** A finite double of magnitude at most one. *)
Definition unit_double (x : float) : bool :=
  is_finite x && double x && leb (SFabs x) one.

End PyFloat.
Import PyFloat.

(** ** Decoded JSON documents *)

(** What [json.loads] produces: [None], [bool], [int], [float], [str], [list]
    and [dict].  A [dict] is kept as an association list in insertion order,
    with one binding per key. *)
Inductive json : Type :=
| JNull
| JBool (b : bool)
| JInt (n : Z)
| JFloat (f : float)
| JStr (s : string)
| JList (items : list json)
| JDict (fields : list (string * json)).

(** The Python numbers: the instances of [int] or [float].  [bool] is a
    subclass of [int], so [isinstance(True, (int, float))] holds. *)
Inductive number : Type :=
| NInt (n : Z)
| NBool (b : bool)
| NFloat (f : float).

Definition point : Type := (number * number)%type.

(** [isinstance(v, (int, float))], returning the number itself. *)
Definition as_number (v : json) : option number :=
  match v with
  | JInt n => Some (NInt n)
  | JBool b => Some (NBool b)
  | JFloat f => Some (NFloat f)
  | _ => None
  end.

Definition type_name (v : json) : string :=
  match v with
  | JNull => "NoneType"
  | JBool _ => "bool"
  | JInt _ => "int"
  | JFloat _ => "float"
  | JStr _ => "str"
  | JList _ => "list"
  | JDict _ => "dict"
  end.

(** Truth value of an object, as tested by [not v] and [v and ...]. *)
Definition truthy (v : json) : bool :=
  match v with
  | JNull => false
  | JBool b => b
  | JInt n => negb (n =? 0)
  | JFloat f => negb (eqb f zero)
  | JStr s => match s with EmptyString => false | _ => true end
  | JList items => match items with [] => false | _ => true end
  | JDict fields => match fields with [] => false | _ => true end
  end.

Fixpoint assoc (key : string) (fields : list (string * json)) : option json :=
  match fields with
  | [] => None
  | (k, v) :: rest => if (k =? key)%string then Some v else assoc key rest
  end.

Definition no_attribute (v : json) (attr : string) : exn :=
  AttributeError
    ("'" ++ type_name v ++ "' object has no attribute '" ++ attr ++ "'")%string.

(** [v.get(key)]: only a [dict] has the method; a missing key gives [None]. *)
Definition py_get (v : json) (key : string) : result json :=
  match v with
  | JDict fields =>
      Return (match assoc key fields with Some x => x | None => JNull end)
  | _ => Raise (no_attribute v "get")
  end.

(** [v[key]] with a string key. *)
Definition py_getitem (v : json) (key : string) : result json :=
  match v with
  | JDict fields =>
      match assoc key fields with
      | Some x => Return x
      | None => Raise (KeyError key)
      end
  | JList _ => Raise (TypeError "list indices must be integers or slices, not str")
  | JStr _ => Raise (TypeError "string indices must be integers, not 'str'")
  | _ => Raise (TypeError ("'" ++ type_name v ++ "' object is not subscriptable")%string)
  end.

Fixpoint chars (s : string) : list json :=
  match s with
  | EmptyString => []
  | String c rest => JStr (String c EmptyString) :: chars rest
  end.

(** The items a [for] loop draws from an object: the elements of a list, the
    characters of a string, the keys of a dict; anything else is not
    iterable. *)
Definition py_iter (v : json) : result (list json) :=
  match v with
  | JList items => Return items
  | JStr s => Return (chars s)
  | JDict fields => Return (map (fun kv => JStr (fst kv)) fields)
  | _ => Raise (TypeError ("'" ++ type_name v ++ "' object is not iterable")%string)
  end.

(** [t == "Point"]. *)
Definition is_Point (t : json) : bool :=
  match t with
  | JStr s => (s =? "Point")%string
  | _ => false
  end.

(** ** The point extractor *)

(** The [while] loop of the extractor: as long as the candidate is a
    non-empty list whose first element is a list, step into that element. *)
Fixpoint unwrap (coords : json) : json :=
  match coords with
  | JList (first :: _) =>
      match first with
      | JList _ => unwrap first
      | _ => coords
      end
  | _ => coords
  end.

(** ** The C library *)

(** The functions of the platform's C library that [math.sin], [math.cos],
    [math.asin] and the float power call.  Their results are not prescribed
    bit for bit by any standard, so they are parameters of the model. *)
Record libm : Type := {
  c_sin : float -> float;
  c_cos : float -> float;
  c_asin : float -> float;
  c_pow : float -> float -> float
}.

(** What the C standard (Annex F) and the ranges of the functions
    guarantee of any conforming library: the sine is odd, maps zero to zero
    and infinities to NaN, and stays within the unit interval, as does the
    cosine; the arc sine maps [+0] to [+0], the numbers from zero to one to
    finite non-negative angles and anything above one to NaN; the square of
    a positive number of at most one is finite and non-negative. *)
Record libm_laws (C : libm) : Prop := {
  sin_odd : forall x, c_sin C (SFopp x) = SFopp (c_sin C x);
  sin_zero : c_sin C zero = zero;
  sin_inf : forall s, c_sin C (S754_infinity s) = nan;
  sin_range : forall x, is_finite x = true -> unit_double (c_sin C x) = true;
  cos_range : forall x, is_finite x = true -> unit_double (c_cos C x) = true;
  asin_zero : c_asin C zero = zero;
  asin_range : forall x, nonneg x = true -> leb x one = true ->
                         nonneg (c_asin C x) && is_finite (c_asin C x) = true;
  asin_domain : forall x, ltb one x = true -> c_asin C x = nan;
  pow_range : forall x, unit_double x = true -> ltb zero x = true ->
                        nonneg (c_pow C x two) && is_finite (c_pow C x two) = true
}.

(** The double nearest to pi, [0x400921FB54442D18]. *)
Definition Py_MATH_PI : float := S754_finite false 7074237752028440 (-51).

(** [degToRad = Py_MATH_PI / 180.0], the factor of [math.radians]. *)
Definition degToRad : float := Eval vm_compute in div Py_MATH_PI (of_Z 180).

Definition radians (x : float) : float := mul x degToRad.

Definition math_domain_error : exn := ValueError "math domain error".

(** The wrapper CPython puts around a one-argument C function that cannot
    overflow: a NaN result of a non-NaN argument, or an infinite result of a
    finite argument, is reported as a [ValueError]. *)
Definition math_1 (func : float -> float) (x : float) : result float :=
  let r := func x in
  if is_nan r && negb (is_nan x) then Raise math_domain_error
  else if is_inf r && is_finite x then Raise math_domain_error
  else Return r.

(** [float(x)] of a number. *)
Definition py_float (x : number) : result float :=
  match x with
  | NFloat f => Return f
  | NBool b => Return (if b then one else zero)
  | NInt n =>
      let f := of_Z n in
      if is_inf f then Raise (OverflowError "int too large to convert to float")
      else Return f
  end.

(** A finite number: an integer, a boolean or a finite double. *)
Definition finite_number (x : number) : bool :=
  match x with
  | NFloat f => is_finite f && double f
  | _ => true
  end.

(** ** The frappe site *)

(** A row returned by [frappe.get_all]: a mapping with the requested fields,
    read by [supplier.name] and [supplier.get("custom_geolocation")]. *)
Record supplier : Type := {
  name : string;
  custom_geolocation : option string
}.

(** The value [get_nearest_supplier] returns: the dict with the keys
    ["name"] and ["distance"]. *)
Record nearest_info : Type := {
  nearest_name : string;
  distance : float
}.

(** The record store, as the module calls it.  Either call may fail with an
    exception. *)
Record site : Type := {
  db_get_value : string -> string -> string -> result (option string);
  get_all : string -> list (string * Z) -> list string -> result (list supplier)
}.

(** The calls the module issues to its collaborators, in order. *)
Inductive event : Type :=
| DbGetValue (doctype docname fieldname : string)
| GetAll (doctype : string) (filters : list (string * Z)) (fields : list string)
| LogError (message title : string).

(** A computation that may raise and that records its collaborator calls. *)
Definition action (A : Type) : Type := (result A * list event)%type.

Definition pure {A : Type} (a : A) : action A := (Return a, []).

Definition lift {A : Type} (r : result A) : action A := (r, []).

Definition call {A : Type} (ev : event) (r : result A) : action A := (r, [ev]).

Definition andThen {A B : Type} (m : action A) (k : A -> action B) : action B :=
  match fst m with
  | Return a => (fst (k a), snd m ++ snd (k a))
  | Raise e => (Raise e, snd m)
  end.

(** [try: body  except Exception as e: handler e]. *)
Definition try_except {A : Type} (body : action A) (handler : exn -> action A)
  : action A :=
  match fst body with
  | Return a => body
  | Raise e => (fst (handler e), snd body ++ snd (handler e))
  end.

Notation "x <~ m ;; k" := (andThen m (fun x => k))
  (at level 61, m at next level, right associativity).

(** [frappe.log_error(message, title)]; it does not raise. *)
Definition log_error (message title : string) : action unit :=
  call (LogError message title) (Return tt).

(** ** The module *)

Section Api.

(** [json.loads]: the decoded document, or the exception of the decoder. *)
Variable json_loads : string -> result json.
Variable C : libm.
Variable frappe : site.

(** *** [get_coordinates_from_geojson] *)

(** The body of [for feature in data["features"]], over the items still to
    be visited. *)
Fixpoint find_point (features : list json) : result (option point) :=
  match features with
  | [] => Return None
  | feature :: rest =>
      geometry <- py_get feature "geometry" ;;
      is_point <- (if truthy geometry
                   then (g <- py_getitem feature "geometry" ;;
                         t <- py_get g "type" ;;
                         Return (is_Point t))
                   else Return false) ;;
      if is_point then
        g <- py_getitem feature "geometry" ;;
        coords <- py_get g "coordinates" ;;
        match unwrap coords with
        | JList (lon :: lat :: _) =>
            match as_number lon, as_number lat with
            | Some x, Some y => Return (Some (x, y))
            | _, _ => find_point rest
            end
        | _ => find_point rest
        end
      else find_point rest
  end.

Definition get_coordinates_from_geojson (geojson_str : option string)
  : result (option point) :=
  match geojson_str with
  | None | Some EmptyString => Return None
  | Some s =>
      data <- json_loads s ;;
      features <- py_get data "features" ;;
      if negb (truthy features) then Return None
      else
        features <- py_getitem data "features" ;;
        items <- py_iter features ;;
        find_point items
  end.

(** *** [haversine_distance] *)

Definition math_sin : float -> result float := math_1 (c_sin C).
Definition math_cos : float -> result float := math_1 (c_cos C).
Definition math_asin : float -> result float := math_1 (c_asin C).
Definition math_sqrt : float -> result float := math_1 sqrt.

(** [x ** 2] on a float [x]: CPython's [float_pow] at the exponent [2.0].
    The special cases come first; the C library only sees a positive
    finite base other than one, and an infinite result is an overflow. *)
Definition float_pow2 (iv : float) : result float :=
  if is_nan iv then Return iv
  else if is_inf iv then Return (SFabs iv)
  else if eqb iv zero then Return zero
  else
    let iv := if ltb iv zero then SFopp iv else iv in
    if eqb iv one then Return one
    else
      let ix := c_pow C iv two in
      if is_inf ix
      then Raise (OverflowError "(34, 'Numerical result out of range')")
      else Return ix.

Definition haversine_distance (lon1 lat1 lon2 lat2 : number) : result float :=
  f_lon1 <- py_float lon1 ;;
  f_lat1 <- py_float lat1 ;;
  f_lon2 <- py_float lon2 ;;
  f_lat2 <- py_float lat2 ;;
  let lon1 := radians f_lon1 in
  let lat1 := radians f_lat1 in
  let lon2 := radians f_lon2 in
  let lat2 := radians f_lat2 in
  let dlon := sub lon2 lon1 in
  let dlat := sub lat2 lat1 in
  sin_dlat <- math_sin (div dlat two) ;;
  sin_dlat2 <- float_pow2 sin_dlat ;;
  cos_lat1 <- math_cos lat1 ;;
  cos_lat2 <- math_cos lat2 ;;
  sin_dlon <- math_sin (div dlon two) ;;
  sin_dlon2 <- float_pow2 sin_dlon ;;
  let a := add sin_dlat2 (mul (mul cos_lat1 cos_lat2) sin_dlon2) in
  root <- math_sqrt a ;;
  angle <- math_asin root ;;
  let c := mul two angle in
  let r := of_Z 6371 in
  Return (mul c r).

(** The formula proper, as [haversine_distance] evaluates it after the
    conversions: from the difference of the latitudes, the two latitudes and
    the difference of the longitudes, all in radians. *)
Definition haversine_formula (dlat lat1 lat2 dlon : float) : result float :=
  sin_dlat <- math_sin (div dlat two) ;;
  sin_dlat2 <- float_pow2 sin_dlat ;;
  cos_lat1 <- math_cos lat1 ;;
  cos_lat2 <- math_cos lat2 ;;
  sin_dlon <- math_sin (div dlon two) ;;
  sin_dlon2 <- float_pow2 sin_dlon ;;
  let a := add sin_dlat2 (mul (mul cos_lat1 cos_lat2) sin_dlon2) in
  root <- math_sqrt a ;;
  angle <- math_asin root ;;
  let c := mul two angle in
  let r := of_Z 6371 in
  Return (mul c r).

(** *** [get_nearest_supplier] *)

(** The loop variables [nearest_supplier_info] and [min_distance]. *)
Definition scan_state : Type := (option nearest_info * float)%type.

(** The [try] block of the supplier loop.  A [continue] leaves the loop
    variables as they are. *)
Definition supplier_try (lon1 lat1 : number) (supplier : supplier)
    (st : scan_state) : result scan_state :=
  let supplier_location_data := custom_geolocation supplier in
  supplier_coords <- get_coordinates_from_geojson supplier_location_data ;;
  match supplier_coords with
  | None => Return st
  | Some (lon2, lat2) =>
      distance <- haversine_distance lon1 lat1 lon2 lat2 ;;
      if ltb distance (snd st)
      then Return (Some {| nearest_name := name supplier;
                           distance := distance |}, distance)
      else Return st
  end.

Definition supplier_message (supplier : supplier) (e : exn) : string :=
  ("Geofencing: Could not process location for supplier '"
     ++ name supplier ++ "'. Error: " ++ exn_str e)%string.

Fixpoint supplier_loop (lon1 lat1 : number) (enabled_suppliers : list supplier)
    (st : scan_state) : action scan_state :=
  match enabled_suppliers with
  | [] => pure st
  | supplier :: rest =>
      st' <~ try_except
               (lift (supplier_try lon1 lat1 supplier st))
               (fun e =>
                  _ <~ log_error (supplier_message supplier e)
                                 "Supplier Location Parse Error" ;;
                  pure st) ;;
      supplier_loop lon1 lat1 rest st'
  end.

Definition warehouse_message (warehouse : string) (e : exn) : string :=
  ("Geofencing: Could not parse location for warehouse '"
     ++ warehouse ++ "'. Error: " ++ exn_str e)%string.

(** The [try] block of step 1, up to the unpacking of the coordinates. *)
Definition warehouse_try (warehouse : string) : action point :=
  warehouse_location_str <~
    call (DbGetValue "Warehouse" warehouse "custom_geolocation")
         (db_get_value frappe "Warehouse" warehouse "custom_geolocation") ;;
  lift (warehouse_coords <- get_coordinates_from_geojson warehouse_location_str ;;
        match warehouse_coords with
        | None =>
            Raise (ValueError
              "Could not extract valid point coordinates from warehouse location.")
        | Some p => Return p
        end).

Definition get_nearest_supplier (warehouse : option string)
  : action (option nearest_info) :=
  match warehouse with
  | None | Some EmptyString => pure None
  | Some w =>
      located <~ try_except
                   (p <~ warehouse_try w ;; pure (Some p))
                   (fun e =>
                      _ <~ log_error (warehouse_message w e)
                                     "Warehouse Location Parse Error" ;;
                      pure None) ;;
      match located with
      | None => pure None
      | Some (lon1, lat1) =>
          enabled_suppliers <~
            call (GetAll "Supplier" [("disabled", 0)] ["name"; "custom_geolocation"])
                 (get_all frappe "Supplier" [("disabled", 0)]
                          ["name"; "custom_geolocation"]) ;;
          st <~ supplier_loop lon1 lat1 enabled_suppliers (None, inf) ;;
          pure (fst st)
      end
  end.

End Api.

(** The calls of [get_nearest_supplier], as they appear in its trace. *)
Definition warehouse_fetch (warehouse : string) : event :=
  DbGetValue "Warehouse" warehouse "custom_geolocation".

Definition supplier_fetch : event :=
  GetAll "Supplier" [("disabled", 0)] ["name"; "custom_geolocation"].

Definition warehouse_log (warehouse : string) (e : exn) : event :=
  LogError (warehouse_message warehouse e) "Warehouse Location Parse Error".

Definition supplier_log (supplier : supplier) (e : exn) : event :=
  LogError (supplier_message supplier e) "Supplier Location Parse Error".

(** ** The extractor, in the words of its description *)

(** One step of the nesting normalization: a non-empty list whose first
    element is itself a list is replaced by that first element. *)
Inductive unwrap_step : json -> json -> Prop :=
| unwrap_first (inner rest : list json) :
    unwrap_step (JList (JList inner :: rest)) (JList inner).

Inductive unwrap_steps : json -> json -> Prop :=
| unwrap_done (c : json) : unwrap_steps c c
| unwrap_more (c c' c'' : json) :
    unwrap_step c c' -> unwrap_steps c' c'' -> unwrap_steps c c''.

(** [c'] is what is left of [c] once no step applies any more. *)
Definition normalized (c c' : json) : Prop :=
  unwrap_steps c c' /\ forall c'', ~ unwrap_step c' c''.

(** The field of a mapping; absent ([None]) when the key is missing or the
    value is no mapping at all. *)
Definition field (v : json) (key : string) : json :=
  match v with
  | JDict fields => match assoc key fields with Some x => x | None => JNull end
  | _ => JNull
  end.

(** A feature yields the point [p]: its geometry type is ["Point"] and its
    normalized coordinates are a sequence of at least two elements, the first
    two of them the numbers of [p]. *)
Definition yields_point (feature : json) (p : point) : Prop :=
  is_Point (field (field feature "geometry") "type") = true /\
  exists lon lat rest,
    normalized (field (field feature "geometry") "coordinates")
               (JList (lon :: lat :: rest)) /\
    as_number lon = Some (fst p) /\ as_number lat = Some (snd p).

Definition is_dict (v : json) : bool :=
  match v with JDict _ => true | _ => false end.

(** The shape of a GeoJSON feature: a mapping whose geometry, when present
    and not empty, is a mapping. *)
Definition feature_shaped (feature : json) : bool :=
  is_dict feature &&
  (negb (truthy (field feature "geometry")) || is_dict (field feature "geometry")).

(** ** Fixtures *)

(** A decoder given by a finite table: each text with the document it
    decodes to, or with the exception the decoder raises on it; any other
    text is rejected. *)
Fixpoint loads_table (table : list (string * result json)) (s : string)
  : result json :=
  match table with
  | [] => Raise (JSONDecodeError "Expecting value: line 1 column 1 (char 0)")
  | (text, outcome) :: rest =>
      if (text =? s)%string then outcome else loads_table rest s
  end.

(** JSON text is written here with ['] in place of the double quote. *)
Fixpoint dquote (s : string) : string :=
  match s with
  | EmptyString => EmptyString
  | String c rest =>
      String (if Ascii.eqb c "'"%char then "034"%char else c) (dquote rest)
  end.

(** A C library of first-order approximations around zero: [sin x] is [x]
    clamped to the unit interval, [asin x] is [x] on the unit interval,
    [cos x] is one and [pow x y] is [x * x].  Arguments outside the domain
    give NaN. *)
Definition clamp_unit (x : float) : float :=
  match x with
  | S754_infinity _ => S754_nan
  | S754_finite s _ _ =>
      if unit_double x then x else if s then SFopp one else one
  | _ => x
  end.

Definition small_angle : libm := {|
  c_sin := clamp_unit;
  c_cos := fun x => if is_finite x then one else S754_nan;
  c_asin := fun x => if leb (SFabs x) one then x else S754_nan;
  c_pow := fun x _ => mul x x
|}.

Definition point_feature (coords : json) : json :=
  JDict [("type", JStr "Feature");
         ("geometry", JDict [("type", JStr "Point"); ("coordinates", coords)])].

Definition collection (features : list json) : json :=
  JDict [("type", JStr "FeatureCollection"); ("features", JList features)].

Definition f_2_5 : float := Eval vm_compute in div (of_Z 25) (of_Z 10).
Definition f_48_8 : float := Eval vm_compute in div (of_Z 488) (of_Z 10).

Fixpoint zeros (n : nat) : string :=
  match n with
  | O => EmptyString
  | S k => String "0"%char (zeros k)
  end.

(** The text and the document of a feature collection with one point. *)
Definition point_text (coords : string) : string :=
  dquote ("{'type': 'FeatureCollection', 'features': [{'type': 'Feature', "
          ++ "'geometry': {'type': 'Point', 'coordinates': " ++ coords ++ "}}]}")%string.

Definition point_doc (coords : json) : json := collection [point_feature coords].

(** A collection whose first feature is the number five, and one whose only
    feature is [null]. *)
Definition stray_number_text : string :=
  dquote "{'features': [5, {'geometry': {'type': 'Point', 'coordinates': [1, 2]}}]}".

Definition stray_number_doc : json :=
  JDict [("features",
          JList [JInt 5;
                 JDict [("geometry",
                         JDict [("type", JStr "Point");
                                ("coordinates", JList [JInt 1; JInt 2])])]])].

Definition null_feature_text : string := dquote "{'features': [null]}".

Definition null_feature_doc : json := JDict [("features", JList [JNull])].

(** An integer of 401 digits: too large for a float. *)
Definition huge : Z := 10 ^ 400.

Definition not_valid : exn :=
  JSONDecodeError
    "Expecting property name enclosed in double quotes: line 1 column 2 (char 1)".

Definition example_documents : list (string * result json) :=
  [ (point_text "[0, 0]", Return (point_doc (JList [JInt 0; JInt 0])));
    (point_text "[0, 1]", Return (point_doc (JList [JInt 0; JInt 1])));
    (point_text "[1, 0]", Return (point_doc (JList [JInt 1; JInt 0])));
    (point_text "[[[2.5, 48.8]]]",
     Return (point_doc (JList [JList [JList [JFloat f_2_5; JFloat f_48_8]]])));
    (point_text ("[1" ++ zeros 400 ++ ", 0]")%string,
     Return (point_doc (JList [JInt huge; JInt 0])));
    (stray_number_text, Return stray_number_doc);
    (null_feature_text, Return null_feature_doc);
    ("{not valid}", Raise not_valid) ].

Definition example_loads : string -> result json := loads_table example_documents.

Definition supplier_A : supplier :=
  {| name := "SUP-A"; custom_geolocation := Some (point_text "[0, 1]") |}.
Definition supplier_B : supplier :=
  {| name := "SUP-B"; custom_geolocation := Some (point_text "[1, 0]") |}.
Definition supplier_unlocated : supplier :=
  {| name := "SUP-C"; custom_geolocation := None |}.
Definition supplier_malformed : supplier :=
  {| name := "SUP-D"; custom_geolocation := Some "{not valid}" |}.
Definition supplier_far : supplier :=
  {| name := "SUP-E";
     custom_geolocation := Some (point_text ("[1" ++ zeros 400 ++ ", 0]")%string) |}.

Definition server_gone : exn :=
  OtherException "OperationalError" "MySQL server has gone away".

(** A site with a warehouse at the origin, one without a location, one with
    a malformed location and one whose fetch fails; the enabled suppliers are
    A, B and the unlocated one. *)
Definition example_site : site :=
  {| db_get_value := fun _ docname _ =>
       if (docname =? "WH-ORIGIN")%string then Return (Some (point_text "[0, 0]"))
       else if (docname =? "WH-MALFORMED")%string then Return (Some "{not valid}")
       else if (docname =? "WH-DOWN")%string then Raise server_gone
       else Return None;
     get_all := fun _ _ _ => Return [supplier_A; supplier_B; supplier_unlocated] |}.

(** The same site when the list of suppliers cannot be fetched. *)
Definition failing_site : site :=
  {| db_get_value := db_get_value example_site;
     get_all := fun _ _ _ => Raise server_gone |}.

(** The point a feature yields, computed: the decidable form of
    [yields_point]. *)
Definition feature_point (feature : json) : option point :=
  if is_Point (field (field feature "geometry") "type") then
    match unwrap (field (field feature "geometry") "coordinates") with
    | JList (lon :: lat :: _) =>
        match as_number lon, as_number lat with
        | Some x, Some y => Some (x, y)
        | _, _ => None
        end
    | _ => None
    end
  else None.

(** ** The scan, in the words of its description *)

Section Candidates.

Variable json_loads : string -> result json.
Variable C : libm.
Variables lon1 lat1 : number.

(** What one supplier contributes to the search from the warehouse point
    [(lon1, lat1)]: a distance when its location yields a point and the
    distance is computed, nothing when the location yields no point, an
    exception when the location cannot be processed. *)
Definition supplier_distance (supplier : supplier) : result (option float) :=
  coords <- get_coordinates_from_geojson json_loads (custom_geolocation supplier) ;;
  match coords with
  | None => Return None
  | Some (lon2, lat2) =>
      d <- haversine_distance C lon1 lat1 lon2 lat2 ;;
      Return (Some d)
  end.

(** The running minimum after a supplier at distance [d]: replaced only when
    [d] is strictly below it. *)
Definition select (st : scan_state) (supplier : supplier) (d : float) : scan_state :=
  if ltb d (snd st)
  then (Some {| nearest_name := name supplier; distance := d |}, d)
  else st.

Definition scan_step (st : scan_state) (supplier : supplier) : scan_state :=
  match supplier_distance supplier with
  | Return (Some d) => select st supplier d
  | _ => st
  end.

(** The log entries of the scan: one for each supplier whose processing
    raised. *)
Definition scan_log (suppliers : list supplier) : list event :=
  flat_map (fun s => match supplier_distance s with
                     | Raise e => [supplier_log s e]
                     | Return _ => []
                     end) suppliers.

End Candidates.

Section Nearest.

(** The contribution of each supplier, as [supplier_distance] gives it. *)
Variable dist : supplier -> result (option float).

(** No supplier of the list is at a distance below the initial bound
    [float('inf')]. *)
Definition none_in_reach (suppliers : list supplier) : Prop :=
  forall s d, In s suppliers -> dist s = Return (Some d) -> ltb d inf = false.

(** [info] is the first supplier of the list at the least distance: it is the
    name and the distance of some supplier of the list, no supplier of the
    list is strictly closer, and no supplier before it is at an equal
    distance. *)
Definition first_nearest (suppliers : list supplier) (info : nearest_info) : Prop :=
  exists (i : nat) (s : supplier),
    nth_error suppliers i = Some s /\
    nearest_name info = name s /\
    dist s = Return (Some (distance info)) /\
    ltb (distance info) inf = true /\
    (forall s' d', In s' suppliers -> dist s' = Return (Some d') ->
                   ltb d' (distance info) = false) /\
    (forall j s' d', (j < i)%nat -> nth_error suppliers j = Some s' ->
                     dist s' = Return (Some d') -> eqb d' (distance info) = false).

Definition nearest_spec (suppliers : list supplier) (r : option nearest_info) : Prop :=
  match r with
  | None => none_in_reach suppliers
  | Some info => first_nearest suppliers info
  end.

(** The invariant of the loop over the suppliers visited so far. *)
Definition scan_inv (visited : list supplier) (st : scan_state) : Prop :=
  match fst st with
  | None => snd st = inf /\ none_in_reach visited
  | Some info => snd st = distance info /\ first_nearest visited info
  end.

End Nearest.

Section Warehouse.

Variable json_loads : string -> result json.
Variable frappe : site.

(** The ways step 1 can fail for the warehouse [w], with the exception that
    reaches the [except] clause: the fetch of the location raises; the
    location does not decode or cannot be scanned; the location yields no
    point. *)
Inductive warehouse_failure (w : string) : exn -> Prop :=
| fetch_failed (e : exn) :
    db_get_value frappe "Warehouse" w "custom_geolocation" = Raise e ->
    warehouse_failure w e
| extraction_failed (loc : option string) (e : exn) :
    db_get_value frappe "Warehouse" w "custom_geolocation" = Return loc ->
    get_coordinates_from_geojson json_loads loc = Raise e ->
    warehouse_failure w e
| no_point (loc : option string) :
    db_get_value frappe "Warehouse" w "custom_geolocation" = Return loc ->
    get_coordinates_from_geojson json_loads loc = Return None ->
    warehouse_failure w
      (ValueError "Could not extract valid point coordinates from warehouse location.").

(** Step 1 succeeds with the point [p]. *)
Definition warehouse_located (w : string) (p : point) : Prop :=
  exists loc,
    db_get_value frappe "Warehouse" w "custom_geolocation" = Return loc /\
    get_coordinates_from_geojson json_loads loc = Return (Some p).

End Warehouse.

(** The same site with another list of enabled suppliers. *)
Definition with_suppliers (frappe : site) (suppliers : list supplier) : site :=
  {| db_get_value := db_get_value frappe;
     get_all := fun _ _ _ => Return suppliers |}.

(** Two outcomes that agree up to the sign of the value returned. *)
Definition same_magnitude (a b : result float) : Prop :=
  match a, b with
  | Return r, Return r' => SFabs r = SFabs r'
  | Raise e, Raise e' => e = e'
  | _, _ => False
  end.

(** ** Further notions *)

(** The calls that read the record store. *)
Definition is_data_access (ev : event) : bool :=
  match ev with
  | DbGetValue _ _ _ | GetAll _ _ _ => true
  | LogError _ _ => false
  end.

(** Two results of [get_nearest_supplier] that report the same distance, as
    [==] compares floats, or are both absent. *)
Definition same_distance (r r' : option nearest_info) : Prop :=
  match r, r' with
  | None, None => True
  | Some info, Some info' => eqb (distance info) (distance info') = true
  | _, _ => False
  end.

(** A point with finite coordinates. *)
Definition finite_point (p : point) : bool :=
  finite_number (fst p) && finite_number (snd p).

(** A number that [float(...)] converts without overflow for certain: a
    boolean, a finite double, or an integer below [2 ** 1023] in
    magnitude. *)
Definition safe_number (x : number) : bool :=
  match x with
  | NInt n => Z.abs n <? 2 ^ 1023
  | _ => finite_number x
  end.

(** The negation of a float given as a number. *)
Definition mirror (x : float) : number := NFloat (SFopp x).

(** Further documents: a point wrapped three times with stray siblings, a
    collection whose features value is a number, one whose features value
    is a string, a bare list, and a collection with a misshaped feature
    after a point. *)
Definition wrapped_coords : json :=
  JList [JList [JList [JInt 7; JInt 8; JInt 9]; JStr "x"]; JNull].

Definition scalar_features_text : string := dquote "{'features': 5}".
Definition scalar_features_doc : json := JDict [("features", JInt 5)].

Definition string_features_text : string := dquote "{'features': 'abc'}".
Definition string_features_doc : json := JDict [("features", JStr "abc")].

Definition point_then_number_text : string :=
  dquote "{'features': [{'geometry': {'type': 'Point', 'coordinates': [1, 2]}}, 5]}".

Definition point_then_number_doc : json :=
  JDict [("features",
          JList [JDict [("geometry",
                         JDict [("type", JStr "Point");
                                ("coordinates", JList [JInt 1; JInt 2])])];
                 JInt 5])].

Definition point_only_text : string :=
  dquote "{'features': [{'geometry': {'type': 'Point', 'coordinates': [1, 2]}}]}".

Definition point_only_doc : json :=
  JDict [("features",
          JList [JDict [("geometry",
                         JDict [("type", JStr "Point");
                                ("coordinates", JList [JInt 1; JInt 2])])]])].

Definition more_documents : list (string * result json) :=
  [ (point_text "[7, 8, 9]", Return (point_doc (JList [JInt 7; JInt 8; JInt 9])));
    (point_text "[[[7, 8, 9], 'x'], null]", Return (point_doc wrapped_coords));
    (scalar_features_text, Return scalar_features_doc);
    (string_features_text, Return string_features_doc);
    (point_then_number_text, Return point_then_number_doc);
    (point_only_text, Return point_only_doc) ].

(** Two features that differ in the wrapping of their coordinates only: both
    are mappings whose geometries are mappings with the same type, and the
    coordinates of the second lead to those of the first by unwrapping
    steps.  Every other key of the features and of their geometries is
    free. *)
Definition rewrapped (feature feature' : json) : Prop :=
  is_dict feature = true /\ is_dict feature' = true /\
  is_dict (field feature "geometry") = true /\
  is_dict (field feature' "geometry") = true /\
  field (field feature' "geometry") "type" = field (field feature "geometry") "type" /\
  unwrap_steps (field (field feature' "geometry") "coordinates")
               (field (field feature "geometry") "coordinates").

(** Two documents with other keys beside the ones the extractor reads: a
    feature with properties in a mapping that has no type, and the same
    point wrapped, in a feature with an id in a typed collection. *)
Definition plain_feature : json :=
  JDict [("type", JStr "Feature");
         ("properties", JDict [("name", JStr "depot")]);
         ("geometry", JDict [("type", JStr "Point");
                             ("coordinates", JList [JInt 7; JInt 8; JInt 9])])].

Definition plain_feature_text : string :=
  dquote ("{'features': [{'type': 'Feature', 'properties': {'name': 'depot'}, "
          ++ "'geometry': {'type': 'Point', 'coordinates': [7, 8, 9]}}]}")%string.

Definition plain_feature_doc : json := JDict [("features", JList [plain_feature])].

Definition wrapped_feature : json :=
  JDict [("geometry", JDict [("coordinates", wrapped_coords);
                             ("type", JStr "Point");
                             ("bbox", JNull)]);
         ("id", JInt 3)].

Definition wrapped_feature_text : string :=
  dquote ("{'type': 'FeatureCollection', 'features': [{'geometry': "
          ++ "{'coordinates': [[[7, 8, 9], 'x'], null], 'type': 'Point', "
          ++ "'bbox': null}, 'id': 3}]}")%string.

Definition wrapped_feature_doc : json :=
  JDict [("type", JStr "FeatureCollection"); ("features", JList [wrapped_feature])].

Definition wrapping_loads : string -> result json :=
  loads_table [ (plain_feature_text, Return plain_feature_doc);
                (wrapped_feature_text, Return wrapped_feature_doc) ].










(** A supplier at the coordinates of the warehouse at the origin. *)
Definition supplier_origin : supplier :=
  {| name := "SUP-O"; custom_geolocation := Some (point_text "[0, 0]") |}.

Definition more_loads : string -> result json :=
  loads_table (more_documents ++ example_documents).

(** * Properties of the extractor *)

Section JsonInduction.

Variable P : json -> Prop.
Hypothesis HNull : P JNull.
Hypothesis HBool : forall b, P (JBool b).
Hypothesis HInt : forall n, P (JInt n).
Hypothesis HFloat : forall f, P (JFloat f).
Hypothesis HStr : forall s, P (JStr s).
Hypothesis HList : forall items, Forall P items -> P (JList items).
Hypothesis HDict : forall fields, P (JDict fields).

Fixpoint json_nested_ind (v : json) : P v :=
  match v with
  | JNull => HNull
  | JBool b => HBool b
  | JInt n => HInt n
  | JFloat f => HFloat f
  | JStr s => HStr s
  | JList items =>
      HList ((fix all (l : list json) : Forall P l :=
                match l with
                | [] => Forall_nil P
                | x :: r => Forall_cons x (json_nested_ind x) (all r)
                end) items)
  | JDict fields => HDict fields
  end.

End JsonInduction.

Lemma unwrap_step_deterministic c c1 c2 :
  unwrap_step c c1 -> unwrap_step c c2 -> c1 = c2.
Proof.
  intros H1 H2. inversion H1; subst. inversion H2; subst. reflexivity.
Qed.

Lemma unwrap_normalized : forall c, normalized c (unwrap c).
Proof.
  induction c using json_nested_ind;
    try (split; [apply unwrap_done | intros c'' H; inversion H]; fail).
  destruct items as [|first rest].
  - split; [apply unwrap_done | intros c'' H0; inversion H0].
  - inversion H as [|x l Hfirst _]; subst.
    destruct first as [| | | | | inner |];
      try (split; [apply unwrap_done | intros c'' H0; inversion H0]; fail).
    change (unwrap (JList (JList inner :: rest))) with (unwrap (JList inner)).
    destruct Hfirst as [Hsteps Hnormal]. split.
    + eapply unwrap_more; [constructor | exact Hsteps].
    + exact Hnormal.
Qed.

Lemma normalized_unique c c1 c2 :
  normalized c c1 -> normalized c c2 -> c1 = c2.
Proof.
  intros [H1 N1] [H2 N2]. induction H1 as [c | c c' c1 Hstep Hrest IH].
  - destruct H2 as [c | c c' c2 Hstep _]; [reflexivity|].
    exfalso. exact (N1 _ Hstep).
  - destruct H2 as [c | c d c2 Hstep2 Hrest2].
    + exfalso. exact (N2 _ Hstep).
    + apply IH; [exact N1|].
      rewrite (unwrap_step_deterministic Hstep Hstep2). exact Hrest2.
Qed.

Lemma normalized_iff_unwrap c c' : normalized c c' <-> unwrap c = c'.
Proof.
  split.
  - intros H. exact (normalized_unique (unwrap_normalized c) H).
  - intros <-. apply unwrap_normalized.
Qed.

Lemma feature_point_spec feature p :
  feature_point feature = Some p <-> yields_point feature p.
Proof.
  unfold feature_point, yields_point. split.
  - destruct (is_Point _); [|discriminate].
    destruct (unwrap _) as [| | | | | items |] eqn:E; try discriminate.
    destruct items as [|lon [|lat rest]]; try discriminate.
    destruct (as_number lon) as [x|] eqn:Ex; [|discriminate].
    destruct (as_number lat) as [y|] eqn:Ey; [|discriminate].
    intros [= <-]. split; [reflexivity|].
    exists lon, lat, rest. rewrite normalized_iff_unwrap. auto.
  - intros [-> (lon & lat & rest & Hn & Hx & Hy)].
    apply normalized_iff_unwrap in Hn. rewrite Hn, Hx, Hy.
    destruct p; reflexivity.
Qed.

Lemma feature_point_none feature :
  feature_point feature = None <-> forall p, ~ yields_point feature p.
Proof.
  split.
  - intros H p Hp. apply feature_point_spec in Hp. congruence.
  - intros H. destruct (feature_point feature) as [p|] eqn:E; [|reflexivity].
    exfalso. apply (H p), feature_point_spec, E.
Qed.

Arguments field : simpl never.

Lemma py_get_dict fields key :
  py_get (JDict fields) key = Return (field (JDict fields) key).
Proof. reflexivity. Qed.

Lemma py_get_not_dict v key :
  is_dict v = false -> py_get v key = Raise (no_attribute v "get").
Proof. destruct v; simpl; intros H; try reflexivity; discriminate. Qed.

Lemma py_getitem_truthy v key :
  truthy (field v key) = true -> py_getitem v key = Return (field v key).
Proof.
  unfold field. destruct v; simpl; try discriminate.
  destruct (assoc key fields); [reflexivity | discriminate].
Qed.

Lemma field_not_dict v key : is_dict v = false -> field v key = JNull.
Proof. unfold field. destruct v; simpl; intros H; try reflexivity; discriminate. Qed.

Lemma falsy_has_no_type g :
  truthy g = false -> is_Point (field g "type") = false.
Proof.
  unfold field. destruct g; simpl; try reflexivity.
  destruct fields; [reflexivity | discriminate].
Qed.

(** A feature of the expected shape is either the answer or skipped. *)
Lemma find_point_shaped feature rest :
  feature_shaped feature = true ->
  find_point (feature :: rest) =
  match feature_point feature with
  | Some p => Return (Some p)
  | None => find_point rest
  end.
Proof.
  unfold feature_shaped. intros H. apply andb_prop in H as [Hd Hg].
  destruct feature as [| | | | | |fields]; try discriminate.
  cbn [find_point]. rewrite py_get_dict. cbn [bind].
  unfold feature_point.
  destruct (truthy (field (JDict fields) "geometry")) eqn:Ht.
  - rewrite (py_getitem_truthy _ _ Ht). cbn [bind].
    cbn [negb orb] in Hg.
    destruct (field (JDict fields) "geometry") as [| | | | | |gfields] eqn:Eg;
      try discriminate Hg.
    rewrite !py_get_dict. cbn [bind].
    destruct (is_Point (field (JDict gfields) "type")); [|reflexivity].
    destruct (unwrap _) as [| | | | | items |]; try reflexivity.
    destruct items as [|lon [|lat more]]; try reflexivity.
    destruct (as_number lon), (as_number lat); reflexivity.
  - cbn [bind]. rewrite (falsy_has_no_type _ Ht). reflexivity.
Qed.

(** A feature of any other shape stops the scan with an [AttributeError]:
    either the feature or its geometry has no method [get]. *)
Lemma find_point_misshaped feature rest :
  feature_shaped feature = false ->
  find_point (feature :: rest) =
  Raise (no_attribute (if is_dict feature then field feature "geometry" else feature)
                      "get").
Proof.
  unfold feature_shaped. intros H.
  destruct (is_dict feature) eqn:Hd.
  - destruct feature as [| | | | | |fields]; try discriminate.
    cbn [andb] in H. apply orb_false_elim in H as [Ht Hg].
    apply negb_false_iff in Ht.
    cbn [find_point]. rewrite py_get_dict. cbn [bind]. rewrite Ht.
    rewrite (py_getitem_truthy _ _ Ht). cbn [bind].
    rewrite (py_get_not_dict _ _ Hg). reflexivity.
  - cbn [find_point]. rewrite (py_get_not_dict _ _ Hd). reflexivity.
Qed.

Lemma find_point_first (pre : list json) feature post p :
  Forall (fun x => feature_shaped x = true /\ feature_point x = None) pre ->
  feature_shaped feature = true ->
  feature_point feature = Some p ->
  find_point (pre ++ feature :: post) = Return (Some p).
Proof.
  intros Hpre Hs Hp. induction Hpre as [|x pre [Hx Hn] _ IH].
  - simpl app. rewrite (find_point_shaped _ _ Hs), Hp. reflexivity.
  - simpl app. rewrite (find_point_shaped _ _ Hx), Hn. exact IH.
Qed.

Lemma find_point_none_iff (items : list json) :
  find_point items = Return None <->
  Forall (fun x => feature_shaped x = true /\ feature_point x = None) items.
Proof.
  induction items as [|x items IH].
  - split; [constructor | reflexivity].
  - destruct (feature_shaped x) eqn:Hx.
    + rewrite (find_point_shaped _ _ Hx).
      destruct (feature_point x) as [p|] eqn:Hp.
      * split; [discriminate|]. intros H. inversion H as [|? ? [_ Hn] _]; subst.
        congruence.
      * rewrite IH. split.
        -- intros H. constructor; auto.
        -- intros H. inversion H; assumption.
    + rewrite (find_point_misshaped _ _ Hx). split; [discriminate|].
      intros H. inversion H as [|? ? [Hs _] _]; subst. congruence.
Qed.

Lemma yields_point_shaped feature p :
  yields_point feature p -> feature_shaped feature = true.
Proof.
  intros [Ht _]. unfold feature_shaped.
  destruct feature as [| | | | | |fields]; try discriminate.
  cbn [is_dict andb].
  destruct (field (JDict fields) "geometry") as [| | | | | |g]; try discriminate.
  apply orb_true_r.
Qed.

Lemma find_point_never_decode_error items m :
  find_point items <> Raise (JSONDecodeError m).
Proof.
  induction items as [|x items IH]; [discriminate|].
  destruct (feature_shaped x) eqn:Hx.
  - rewrite (find_point_shaped _ _ Hx). destruct (feature_point x); [discriminate | exact IH].
  - rewrite (find_point_misshaped _ _ Hx). discriminate.
Qed.

Section Extractor.

Variable json_loads : string -> result json.

Lemma extract_empty :
  get_coordinates_from_geojson json_loads None = Return None /\
  get_coordinates_from_geojson json_loads (Some EmptyString) = Return None.
Proof. split; reflexivity. Qed.

Lemma extract_decode_error s e :
  s <> EmptyString -> json_loads s = Raise e ->
  get_coordinates_from_geojson json_loads (Some s) = Raise e.
Proof.
  intros Hs He. destruct s; [congruence|].
  unfold get_coordinates_from_geojson. rewrite He. reflexivity.
Qed.

Lemma extract_not_dict s data :
  s <> EmptyString -> json_loads s = Return data -> is_dict data = false ->
  get_coordinates_from_geojson json_loads (Some s) = Raise (no_attribute data "get").
Proof.
  intros Hs Hd Hn. destruct s; [congruence|].
  unfold get_coordinates_from_geojson. rewrite Hd. cbn [bind].
  rewrite (py_get_not_dict _ _ Hn). reflexivity.
Qed.

Lemma extract_dict s data :
  s <> EmptyString -> json_loads s = Return data -> is_dict data = true ->
  get_coordinates_from_geojson json_loads (Some s) =
  if truthy (field data "features")
  then items <- py_iter (field data "features") ;; find_point items
  else Return None.
Proof.
  intros Hs Hd Hn. destruct s; [congruence|].
  unfold get_coordinates_from_geojson. rewrite Hd. cbn [bind].
  destruct data as [| | | | | |fields]; try discriminate.
  rewrite py_get_dict. cbn [bind].
  destruct (truthy (field (JDict fields) "features")) eqn:Ht; [|reflexivity].
  cbn [negb]. rewrite (py_getitem_truthy _ _ Ht). reflexivity.
Qed.

(** Iterating anything but a list never completes the scan: the items of
    a string or of a mapping are strings, which have no method [get]. *)
Lemma iter_completes_only_on_lists features :
  truthy features = true ->
  (items <- py_iter features ;; find_point items) = Return None ->
  exists items, features = JList items.
Proof.
  destruct features as [| | | | s | items | fields]; simpl; try discriminate.
  - destruct s as [|c s]; [discriminate|]. intros _. simpl chars.
    rewrite find_point_misshaped by reflexivity. discriminate.
  - eauto.
  - destruct fields as [|[k v] fields]; [discriminate|]. intros _. simpl map.
    rewrite find_point_misshaped by reflexivity. discriminate.
Qed.

Lemma iter_never_decode_error features m :
  (items <- py_iter features ;; find_point items) <> Raise (JSONDecodeError m).
Proof.
  destruct features; simpl; try discriminate; apply find_point_never_decode_error.
Qed.

(** C2 (as amended).  When the text decodes to a mapping whose ["features"]
    value is a list, the extractor returns the coordinates of the first
    feature that yields a point -- geometry type ["Point"], and coordinates
    that, once normalized by repeatedly stepping into a leading inner list,
    are a sequence of at least two elements starting with two numbers --
    provided every feature before it has the shape of a feature (a mapping
    whose geometry is absent, falsy or a mapping) and yields no point: those
    are skipped. *)
Theorem extractor_returns_first_point :
  forall (s : string) (data : json) (pre : list json) (feature : json)
         (post : list json) (p : point),
    s <> EmptyString ->
    json_loads s = Return data ->
    field data "features" = JList (pre ++ feature :: post) ->
    Forall (fun x => feature_shaped x = true /\ forall q, ~ yields_point x q) pre ->
    yields_point feature p ->
    get_coordinates_from_geojson json_loads (Some s) = Return (Some p).
Proof.
  intros s data pre feature post p Hs Hd Hf Hpre Hp.
  assert (Hdict : is_dict data = true).
  { destruct (is_dict data) eqn:E; [reflexivity|].
    rewrite (field_not_dict _ _ E) in Hf. discriminate. }
  rewrite (extract_dict Hs Hd Hdict), Hf.
  replace (truthy (JList (pre ++ feature :: post))) with true
    by (destruct pre; reflexivity).
  cbn [py_iter bind]. apply find_point_first.
  - eapply Forall_impl; [|exact Hpre]. intros x [Hx Hn]. split; [exact Hx|].
    apply feature_point_none, Hn.
  - exact (yields_point_shaped Hp).
  - apply feature_point_spec, Hp.
Qed.

(** C3 (as amended).  The extractor returns absent exactly when the input is
    absent or empty, or it decodes to a mapping whose ["features"] value is
    missing or falsy, or is a list of feature-shaped items none of which
    yields a point.  It raises the decoder's [JSONDecodeError] exactly when
    the input is not empty and the decoder rejects it with that error. *)
Theorem extractor_absent_and_parse_error :
  forall raw : option string,
    (get_coordinates_from_geojson json_loads raw = Return None <->
     raw = None \/ raw = Some EmptyString \/
     exists s data,
       raw = Some s /\ json_loads s = Return data /\ is_dict data = true /\
       (truthy (field data "features") = false \/
        exists items,
          field data "features" = JList items /\
          Forall (fun x => feature_shaped x = true /\ forall p, ~ yields_point x p)
                 items))
    /\
    (forall m,
       get_coordinates_from_geojson json_loads raw = Raise (JSONDecodeError m) <->
       exists s, raw = Some s /\ s <> EmptyString /\
                 json_loads s = Raise (JSONDecodeError m)).
Proof.
  intros raw. split.
  - split.
    + intros H. destruct raw as [s|]; [|auto].
      destruct (string_dec s EmptyString) as [->|Hs]; [auto|].
      right; right. exists s.
      destruct (json_loads s) as [data|e] eqn:Hd;
        [|rewrite (extract_decode_error Hs Hd) in H; discriminate].
      exists data. destruct (is_dict data) eqn:Hdict;
        [|rewrite (extract_not_dict Hs Hd Hdict) in H; discriminate].
      repeat split; try reflexivity.
      rewrite (extract_dict Hs Hd Hdict) in H.
      destruct (truthy (field data "features")) eqn:Ht; [right|left; reflexivity].
      destruct (iter_completes_only_on_lists _ Ht H) as [items Hi].
      exists items. split; [exact Hi|]. rewrite Hi in H. cbn [py_iter bind] in H.
      apply find_point_none_iff in H.
      eapply Forall_impl; [|exact H]. intros x [Hx Hn]. split; [exact Hx|].
      apply feature_point_none, Hn.
    + intros [->|[->|(s & data & -> & Hd & Hdict & H)]]; try reflexivity.
      destruct (string_dec s EmptyString) as [->|Hs]; [reflexivity|].
      rewrite (extract_dict Hs Hd Hdict).
      destruct H as [->|(items & Hi & Hall)]; [reflexivity|].
      rewrite Hi. destruct items as [|x items]; [reflexivity|].
      cbn [truthy py_iter bind]. apply find_point_none_iff.
      eapply Forall_impl; [|exact Hall]. intros y [Hy Hn]. split; [exact Hy|].
      apply feature_point_none, Hn.
  - intros m. split.
    + intros H. destruct raw as [s|]; [|discriminate].
      destruct (string_dec s EmptyString) as [->|Hs]; [discriminate|].
      exists s. repeat split; try assumption.
      destruct (json_loads s) as [data|e] eqn:Hd.
      * exfalso. destruct (is_dict data) eqn:Hdict.
        -- rewrite (extract_dict Hs Hd Hdict) in H.
           destruct (truthy _); [|discriminate].
           exact (iter_never_decode_error _ H).
        -- rewrite (extract_not_dict Hs Hd Hdict) in H. discriminate.
      * rewrite (extract_decode_error Hs Hd) in H. congruence.
    + intros (s & -> & Hs & Hd). exact (extract_decode_error Hs Hd).
Qed.

End Extractor.

(** * Order of the floats *)

Ltac compare_cases :=
  repeat match goal with
         | |- context [Z.compare ?x ?y] => destruct (Z.compare_spec x y)
         | |- context [Pos.compare_cont Eq ?x ?y] =>
             change (Pos.compare_cont Eq x y) with (Pos.compare x y);
             destruct (Pos.compare_spec x y)
         end;
  cbn; try discriminate; try reflexivity; try (intros; subst; lia).

Lemma ltb_irrefl a : ltb a a = false.
Proof.
  unfold ltb, SFltb, SFcompare.
  destruct a as [[|]|[|]| |[|] m e]; try reflexivity; compare_cases.
Qed.

Lemma ltb_trans a b c : ltb a b = true -> ltb b c = true -> ltb a c = true.
Proof.
  unfold ltb, SFltb, SFcompare.
  destruct a as [[|]|[|]| |[|] ma ea], b as [[|]|[|]| |[|] mb eb],
           c as [[|]|[|]| |[|] mc ec];
    try discriminate; try reflexivity; compare_cases.
Qed.

Lemma eqb_ltb_compat a b c : eqb a b = true -> ltb a c = ltb b c.
Proof.
  unfold eqb, ltb, SFeqb, SFltb, SFcompare.
  destruct a as [[|]|[|]| |[|] ma ea], b as [[|]|[|]| |[|] mb eb],
           c as [[|]|[|]| |[|] mc ec];
    try discriminate; try reflexivity; compare_cases.
Qed.

(** * Properties of the scan *)

Section Finder.

Variable json_loads : string -> result json.
Variable C : libm.

Lemma supplier_try_distance lon1 lat1 s st :
  supplier_try json_loads C lon1 lat1 s st =
  (r <- supplier_distance json_loads C lon1 lat1 s ;;
   match r with
   | None => Return st
   | Some d => Return (select st s d)
   end).
Proof.
  unfold supplier_try, supplier_distance, select.
  destruct (get_coordinates_from_geojson json_loads (custom_geolocation s))
    as [[[lon2 lat2]|]|e]; cbn [bind]; try reflexivity.
  destruct (haversine_distance C lon1 lat1 lon2 lat2); cbn [bind]; try reflexivity.
  destruct (ltb a (snd st)); reflexivity.
Qed.

Lemma supplier_loop_cons lon1 lat1 s rest st :
  supplier_loop json_loads C lon1 lat1 (s :: rest) st =
  match supplier_distance json_loads C lon1 lat1 s with
  | Raise e =>
      (fst (supplier_loop json_loads C lon1 lat1 rest st),
       supplier_log s e :: snd (supplier_loop json_loads C lon1 lat1 rest st))
  | Return r =>
      let st' := match r with Some d => select st s d | None => st end in
      (fst (supplier_loop json_loads C lon1 lat1 rest st'),
       snd (supplier_loop json_loads C lon1 lat1 rest st'))
  end.
Proof.
  cbn [supplier_loop]. rewrite supplier_try_distance.
  unfold andThen, try_except, lift, call.
  destruct (supplier_distance json_loads C lon1 lat1 s) as [[d|]|e];
    cbn [bind fst snd app]; reflexivity.
Qed.

(** The loop never raises: it ends in the state the pure scan computes. *)
Lemma supplier_loop_result lon1 lat1 suppliers :
  forall st,
    fst (supplier_loop json_loads C lon1 lat1 suppliers st) =
    Return (fold_left (scan_step json_loads C lon1 lat1) suppliers st).
Proof.
  induction suppliers as [|s rest IH]; intros st; [reflexivity|].
  rewrite supplier_loop_cons. cbn [fold_left]. unfold scan_step at 2.
  destruct (supplier_distance json_loads C lon1 lat1 s) as [[d|]|e];
    cbn [fst]; apply IH.
Qed.

Lemma supplier_loop_log lon1 lat1 suppliers :
  forall st,
    snd (supplier_loop json_loads C lon1 lat1 suppliers st) =
    scan_log json_loads C lon1 lat1 suppliers.
Proof.
  induction suppliers as [|s rest IH]; intros st; [reflexivity|].
  rewrite supplier_loop_cons. unfold scan_log. cbn [flat_map].
  destruct (supplier_distance json_loads C lon1 lat1 s) as [[d|]|e];
    cbn [snd app]; rewrite IH; reflexivity.
Qed.

Variable frappe : site.

Lemma warehouse_try_located w p :
  warehouse_located json_loads frappe w p ->
  warehouse_try json_loads frappe w = (Return p, [warehouse_fetch w]).
Proof.
  intros (loc & Hdb & Hx). unfold warehouse_try, andThen, call, lift.
  cbn [fst snd]. rewrite Hdb, Hx. reflexivity.
Qed.

Lemma warehouse_try_failure w e :
  warehouse_failure json_loads frappe w e ->
  warehouse_try json_loads frappe w = (Raise e, [warehouse_fetch w]).
Proof.
  unfold warehouse_try, andThen, call, lift.
  intros [e' Hdb | loc e' Hdb Hx | loc Hdb Hx]; cbn [fst snd]; rewrite Hdb;
    try reflexivity; rewrite Hx; reflexivity.
Qed.

(** Step 1 either locates the warehouse or fails with an exception. *)
Lemma warehouse_located_or_failure w :
  (exists p, warehouse_located json_loads frappe w p) \/
  (exists e, warehouse_failure json_loads frappe w e).
Proof.
  destruct (db_get_value frappe "Warehouse" w "custom_geolocation") as [loc|e] eqn:Hdb.
  - destruct (get_coordinates_from_geojson json_loads loc) as [[p|]|e] eqn:Hx.
    + left. exists p, loc. auto.
    + right. eexists. eapply no_point; eassumption.
    + right. exists e. eapply extraction_failed; eassumption.
  - right. exists e. apply fetch_failed. exact Hdb.
Qed.

Lemma nearest_failure w e :
  w <> EmptyString ->
  warehouse_failure json_loads frappe w e ->
  get_nearest_supplier json_loads C frappe (Some w) =
  (Return None, [warehouse_fetch w; warehouse_log w e]).
Proof.
  intros Hw Hf. destruct w as [|c w]; [congruence|].
  unfold get_nearest_supplier.
  unfold andThen at 1. unfold try_except. unfold andThen at 1 2 3.
  rewrite (warehouse_try_failure Hf). reflexivity.
Qed.

Lemma nearest_located w lon1 lat1 :
  w <> EmptyString ->
  warehouse_located json_loads frappe w (lon1, lat1) ->
  get_nearest_supplier json_loads C frappe (Some w) =
  match get_all frappe "Supplier" [("disabled", 0)] ["name"; "custom_geolocation"] with
  | Raise e => (Raise e, [warehouse_fetch w; supplier_fetch])
  | Return suppliers =>
      (Return (fst (fold_left (scan_step json_loads C lon1 lat1) suppliers (None, inf))),
       warehouse_fetch w :: supplier_fetch :: scan_log json_loads C lon1 lat1 suppliers)
  end.
Proof.
  intros Hw Hl. destruct w as [|c w]; [congruence|].
  unfold get_nearest_supplier.
  unfold andThen at 1. unfold try_except. unfold andThen at 1 2 3.
  rewrite (warehouse_try_located Hl). cbn [fst snd pure app].
  unfold andThen, call, pure. cbn [fst snd].
  destruct (get_all frappe _ _ _) as [suppliers|e]; cbn [fst snd app];
    [|reflexivity].
  rewrite supplier_loop_result, supplier_loop_log. cbn [fst snd app].
  rewrite app_nil_r. reflexivity.
Qed.

End Finder.

Section Invariant.

Variable dist : supplier -> result (option float).

Lemma scan_inv_bound visited st s d :
  scan_inv dist visited st -> In s visited -> dist s = Return (Some d) ->
  ltb d (snd st) = false.
Proof.
  unfold scan_inv. destruct st as [[info|] m]; cbn [fst snd].
  - intros [-> (i & s0 & _ & _ & _ & _ & Hmin & _)]. apply Hmin.
  - intros [-> Hnone]. apply Hnone.
Qed.

Lemma scan_inv_reach visited st d :
  scan_inv dist visited st -> ltb d (snd st) = true -> ltb d inf = true.
Proof.
  unfold scan_inv. destruct st as [[info|] m]; cbn [fst snd].
  - intros [-> (i & s0 & _ & _ & _ & Hinf & _)] Hd.
    exact (@ltb_trans _ _ _ Hd Hinf).
  - intros [-> _] Hd. exact Hd.
Qed.

(** A supplier that does not move the minimum keeps the invariant. *)
Lemma scan_inv_keep visited st s :
  (forall d, dist s = Return (Some d) -> ltb d (snd st) = false) ->
  scan_inv dist visited st -> scan_inv dist (visited ++ [s]) st.
Proof.
  unfold scan_inv. destruct st as [[info|] m]; cbn [fst snd]; intros Hs.
  - intros [-> (i & s0 & Hi & Hname & Hd & Hinf & Hmin & Hfirst)].
    split; [reflexivity|]. exists i, s0.
    assert (Hlt : (i < List.length visited)%nat)
      by (apply nth_error_Some; congruence).
    repeat split; try assumption.
    + rewrite nth_error_app1 by exact Hlt. exact Hi.
    + intros s' d' Hin Hd'. apply in_app_or in Hin as [Hin|[<-|[]]].
      * exact (Hmin _ _ Hin Hd').
      * exact (Hs _ Hd').
    + intros j s' d' Hj Hnth. rewrite nth_error_app1 in Hnth by lia.
      exact (Hfirst _ _ _ Hj Hnth).
  - intros [-> Hnone]. split; [reflexivity|].
    intros s' d' Hin Hd'. apply in_app_or in Hin as [Hin|[<-|[]]].
    + exact (Hnone _ _ Hin Hd').
    + exact (Hs _ Hd').
Qed.

(** A supplier strictly below the minimum becomes the first nearest one. *)
Lemma scan_inv_take visited st s d :
  dist s = Return (Some d) -> ltb d (snd st) = true ->
  scan_inv dist visited st ->
  scan_inv dist (visited ++ [s])
           (Some {| nearest_name := name s; distance := d |}, d).
Proof.
  intros Hd Hlt Hinv. unfold scan_inv. cbn [fst snd distance].
  split; [reflexivity|]. exists (List.length visited), s.
  cbn [nearest_name distance]. repeat split.
  - rewrite nth_error_app2, Nat.sub_diag by lia. reflexivity.
  - exact Hd.
  - exact (@scan_inv_reach _ _ _ Hinv Hlt).
  - intros s' d' Hin Hd'. apply in_app_or in Hin as [Hin|[<-|[]]].
    + destruct (ltb d' d) eqn:E; [|reflexivity].
      rewrite <- (@scan_inv_bound _ _ _ _ Hinv Hin Hd').
      symmetry. exact (@ltb_trans _ _ _ E Hlt).
    + assert (d' = d) by congruence. subst. apply ltb_irrefl.
  - intros j s' d' Hj Hnth Hd'. rewrite nth_error_app1 in Hnth by exact Hj.
    destruct (eqb d' d) eqn:E; [|reflexivity].
    rewrite <- (@scan_inv_bound _ _ _ _ Hinv (nth_error_In _ _ Hnth) Hd').
    rewrite (@eqb_ltb_compat _ _ (snd st) E). symmetry. exact Hlt.
Qed.

End Invariant.

Section Minimum.

Variable json_loads : string -> result json.
Variable C : libm.
Variables lon1 lat1 : number.

Lemma scan_inv_step visited st s :
  scan_inv (supplier_distance json_loads C lon1 lat1) visited st ->
  scan_inv (supplier_distance json_loads C lon1 lat1) (visited ++ [s])
           (scan_step json_loads C lon1 lat1 st s).
Proof.
  intros Hinv. unfold scan_step.
  destruct (supplier_distance json_loads C lon1 lat1 s) as [[d|]|e] eqn:Hd.
  - unfold select. destruct (ltb d (snd st)) eqn:Hlt.
    + exact (@scan_inv_take _ _ _ _ _ Hd Hlt Hinv).
    + apply scan_inv_keep; [|exact Hinv]. intros d' Hd'.
      assert (d' = d) by congruence. subst. exact Hlt.
  - apply scan_inv_keep; [|exact Hinv]. intros d' Hd'. congruence.
  - apply scan_inv_keep; [|exact Hinv]. intros d' Hd'. congruence.
Qed.

(** The invariant is kept from any state that satisfies it. *)
Lemma scan_inv_from suppliers :
  forall visited st,
    scan_inv (supplier_distance json_loads C lon1 lat1) visited st ->
    scan_inv (supplier_distance json_loads C lon1 lat1) (visited ++ suppliers)
             (fold_left (scan_step json_loads C lon1 lat1) suppliers st).
Proof.
  induction suppliers as [|s rest IH]; intros visited st Hinv; cbn [fold_left].
  - rewrite app_nil_r. exact Hinv.
  - change (s :: rest) with ([s] ++ rest). rewrite app_assoc.
    apply IH, scan_inv_step, Hinv.
Qed.

Lemma scan_inv_fold suppliers :
  scan_inv (supplier_distance json_loads C lon1 lat1) suppliers
           (fold_left (scan_step json_loads C lon1 lat1) suppliers (None, inf)).
Proof.
  induction suppliers as [|s suppliers IH] using rev_ind.
  - split; [reflexivity|]. intros s d [].
  - rewrite fold_left_app. cbn [fold_left]. apply scan_inv_step, IH.
Qed.

Lemma scan_result_spec suppliers :
  nearest_spec (supplier_distance json_loads C lon1 lat1) suppliers
    (fst (fold_left (scan_step json_loads C lon1 lat1) suppliers (None, inf))).
Proof.
  pose proof (scan_inv_fold suppliers) as H. unfold scan_inv in H.
  unfold nearest_spec.
  destruct (fst (fold_left (scan_step json_loads C lon1 lat1) suppliers (None, inf)));
    apply H.
Qed.

(** A supplier that contributes no distance leaves the scan as it is. *)
Lemma scan_step_skip st s :
  (forall d, supplier_distance json_loads C lon1 lat1 s <> Return (Some d)) ->
  scan_step json_loads C lon1 lat1 st s = st.
Proof.
  intros Hs. unfold scan_step.
  destruct (supplier_distance json_loads C lon1 lat1 s) as [[d|]|e] eqn:Hd;
    try reflexivity.
  exfalso. exact (Hs d eq_refl).
Qed.

Lemma scan_skip pre s post st :
  (forall d, supplier_distance json_loads C lon1 lat1 s <> Return (Some d)) ->
  fold_left (scan_step json_loads C lon1 lat1) (pre ++ s :: post) st =
  fold_left (scan_step json_loads C lon1 lat1) (pre ++ post) st.
Proof.
  intros Hs. rewrite !fold_left_app. cbn [fold_left].
  rewrite scan_step_skip by exact Hs. reflexivity.
Qed.

Lemma scan_log_app l1 l2 :
  scan_log json_loads C lon1 lat1 (l1 ++ l2) =
  scan_log json_loads C lon1 lat1 l1 ++ scan_log json_loads C lon1 lat1 l2.
Proof. unfold scan_log. apply flat_map_app. Qed.

End Minimum.

(** * Properties of [get_nearest_supplier] *)

Section GetNearestSupplier.

Variable json_loads : string -> result json.
Variable C : libm.

(** C1.  When the warehouse is located at [(lon1, lat1)] and the site lists
    the enabled suppliers, [get_nearest_supplier] returns without raising.
    Its result is the first supplier, in list order, at the least distance:
    the name and the haversine distance of a supplier of the list whose
    location yields a point, such that no supplier of the list is strictly
    closer and no earlier supplier is at an equal distance (the minimum moves
    only on a strict [<], so the first of several equal ones is kept).  The
    result is absent when no supplier is at a distance below the initial
    [float('inf')], in particular when no supplier yields a point. *)
Theorem nearest_is_first_minimum :
  forall (frappe : site) (w : string) (lon1 lat1 : number)
         (suppliers : list supplier),
    w <> EmptyString ->
    warehouse_located json_loads frappe w (lon1, lat1) ->
    get_all frappe "Supplier" [("disabled", 0)] ["name"; "custom_geolocation"]
      = Return suppliers ->
    exists r,
      fst (get_nearest_supplier json_loads C frappe (Some w)) = Return r /\
      nearest_spec (supplier_distance json_loads C lon1 lat1) suppliers r /\
      ((forall s p, In s suppliers ->
          get_coordinates_from_geojson json_loads (custom_geolocation s)
            <> Return (Some p)) ->
       r = None).
Proof.
  intros frappe w lon1 lat1 suppliers Hw Hloc Hall.
  rewrite (nearest_located C Hw Hloc), Hall. cbn [fst].
  eexists. split; [reflexivity|]. split; [apply scan_result_spec|].
  intros Hnone.
  pose proof (scan_result_spec json_loads C lon1 lat1 suppliers) as H.
  destruct (fst (fold_left (scan_step json_loads C lon1 lat1) suppliers (None, inf)))
    as [info|]; [exfalso|reflexivity].
  destruct H as (i & s & Hi & _ & Hd & _).
  unfold supplier_distance in Hd.
  destruct (get_coordinates_from_geojson json_loads (custom_geolocation s))
    as [[p|]|e] eqn:Hx; try discriminate.
  exact (Hnone s p (nth_error_In _ _ Hi) Hx).
Qed.

(** C4.  When the location of the warehouse is absent, does not decode or
    cannot be scanned, or yields no point, [get_nearest_supplier] returns
    absent without raising; for a warehouse id that is not empty, its only
    calls are the fetch of the location and one [log_error] naming the
    warehouse and the error. *)
Theorem warehouse_failure_returns_absent :
  forall (frappe : site) (w : string),
    (db_get_value frappe "Warehouse" w "custom_geolocation" = Return None \/
     (exists s e,
        db_get_value frappe "Warehouse" w "custom_geolocation" = Return (Some s) /\
        get_coordinates_from_geojson json_loads (Some s) = Raise e) \/
     (exists loc,
        db_get_value frappe "Warehouse" w "custom_geolocation" = Return loc /\
        get_coordinates_from_geojson json_loads loc = Return None)) ->
    fst (get_nearest_supplier json_loads C frappe (Some w)) = Return None /\
    (w <> EmptyString ->
     exists e,
       snd (get_nearest_supplier json_loads C frappe (Some w)) =
       [warehouse_fetch w; warehouse_log w e]).
Proof.
  intros frappe w H.
  assert (Hf : exists e, warehouse_failure json_loads frappe w e).
  { destruct H as [Hdb | [(s & e & Hdb & Hx) | (loc & Hdb & Hx)]].
    - eexists. eapply no_point; [exact Hdb | reflexivity].
    - exists e. eapply extraction_failed; eassumption.
    - eexists. eapply no_point; eassumption. }
  destruct Hf as [e Hf].
  destruct (string_dec w EmptyString) as [->|Hw]; [split; [reflexivity | congruence]|].
  rewrite (nearest_failure C Hw Hf). split; [reflexivity|].
  intros _. exists e. reflexivity.
Qed.

(** C5.  A supplier whose location does not decode, cannot be scanned or
    yields no point is skipped and the scan goes on: the result is the one
    obtained from the list without that supplier.  When the warehouse is
    located, the call returns, and what it returns is the first supplier at
    the least distance among the remaining suppliers (absent when none of
    them is in reach); the calls are the two fetches followed by the log
    entries of the suppliers before it, one entry for it when its extraction
    raised (none when it merely yields no point), and the log entries of the
    suppliers after it. *)
Theorem bad_supplier_is_skipped :
  forall (frappe : site) (w : string)
         (pre : list supplier) (s : supplier) (post : list supplier),
    get_all frappe "Supplier" [("disabled", 0)] ["name"; "custom_geolocation"]
      = Return (pre ++ s :: post) ->
    (forall p, get_coordinates_from_geojson json_loads (custom_geolocation s)
               <> Return (Some p)) ->
    fst (get_nearest_supplier json_loads C frappe (Some w)) =
    fst (get_nearest_supplier json_loads C (with_suppliers frappe (pre ++ post)) (Some w))
    /\
    (forall lon1 lat1 : number,
       w <> EmptyString ->
       warehouse_located json_loads frappe w (lon1, lat1) ->
       (exists r,
          fst (get_nearest_supplier json_loads C frappe (Some w)) = Return r /\
          nearest_spec (supplier_distance json_loads C lon1 lat1) (pre ++ post) r)
       /\
       snd (get_nearest_supplier json_loads C frappe (Some w)) =
       [warehouse_fetch w; supplier_fetch]
         ++ scan_log json_loads C lon1 lat1 pre
         ++ match get_coordinates_from_geojson json_loads (custom_geolocation s) with
            | Raise e => [supplier_log s e]
            | Return _ => []
            end
         ++ scan_log json_loads C lon1 lat1 post).
Proof.
  intros frappe w pre s post Hall Hbad.
  assert (Hd : forall lon1 lat1 d,
             supplier_distance json_loads C lon1 lat1 s <> Return (Some d)).
  { intros lon1 lat1 d. unfold supplier_distance.
    destruct (get_coordinates_from_geojson json_loads (custom_geolocation s))
      as [[[lon2 lat2]|]|e] eqn:Hx; cbn [bind]; try discriminate.
    exfalso. exact (Hbad _ eq_refl). }
  split.
  - destruct (string_dec w EmptyString) as [->|Hw]; [reflexivity|].
    destruct (warehouse_located_or_failure json_loads frappe w)
      as [[[lon1 lat1] Hloc] | [e Hf]].
    + assert (Hloc' : warehouse_located json_loads
                        (with_suppliers frappe (pre ++ post)) w (lon1, lat1))
        by exact Hloc.
      rewrite (nearest_located C Hw Hloc), (nearest_located C Hw Hloc'), Hall.
      cbn [with_suppliers get_all fst]. do 2 f_equal. apply scan_skip, Hd.
    + assert (Hf' : warehouse_failure json_loads
                      (with_suppliers frappe (pre ++ post)) w e).
      { destruct Hf as [e Hdb | loc e Hdb Hx | loc Hdb Hx].
        - apply fetch_failed. exact Hdb.
        - eapply extraction_failed; [exact Hdb | exact Hx].
        - eapply no_point; [exact Hdb | exact Hx]. }
      rewrite (nearest_failure C Hw Hf), (nearest_failure C Hw Hf'). reflexivity.
  - intros lon1 lat1 Hw Hloc.
    rewrite (nearest_located C Hw Hloc), Hall. cbn [fst snd app]. split.
    + eexists. split; [reflexivity|].
      rewrite (@scan_skip json_loads C lon1 lat1 pre s post (None, inf) (Hd lon1 lat1)).
      apply scan_result_spec.
    + do 2 f_equal.
      change (pre ++ s :: post) with (pre ++ [s] ++ post).
      rewrite !scan_log_app. do 2 f_equal.
      unfold scan_log, supplier_distance. cbn [flat_map].
      destruct (get_coordinates_from_geojson json_loads (custom_geolocation s))
        as [[[lon2 lat2]|]|e] eqn:Hx; cbn [bind app]; try reflexivity.
      exfalso. exact (Hbad _ eq_refl).
Qed.

(** C6.  A failure of step 1 -- the fetch of the warehouse location raises,
    or the extraction raises or yields no point -- makes
    [get_nearest_supplier] return absent after logging it; a failure of the
    fetch of the enabled suppliers, which no [try] encloses, is raised to the
    caller as it is. *)
Theorem warehouse_failure_soft_supplier_fetch_hard :
  forall (frappe : site) (w : string) (e : exn),
    w <> EmptyString ->
    (warehouse_failure json_loads frappe w e ->
     get_nearest_supplier json_loads C frappe (Some w) =
     (Return None, [warehouse_fetch w; warehouse_log w e]))
    /\
    (forall p,
       warehouse_located json_loads frappe w p ->
       get_all frappe "Supplier" [("disabled", 0)] ["name"; "custom_geolocation"]
         = Raise e ->
       get_nearest_supplier json_loads C frappe (Some w) =
       (Raise e, [warehouse_fetch w; supplier_fetch])).
Proof.
  intros frappe w e Hw. split.
  - intros Hf. exact (nearest_failure C Hw Hf).
  - intros [lon1 lat1] Hloc Hall.
    rewrite (nearest_located C Hw Hloc), Hall. reflexivity.
Qed.

(** C7.  For an absent or empty warehouse id, [get_nearest_supplier] returns
    absent at once: no call to the record store (nor to the log) is made. *)
Theorem empty_warehouse_issues_no_call :
  forall frappe : site,
    get_nearest_supplier json_loads C frappe None = (Return None, []) /\
    get_nearest_supplier json_loads C frappe (Some EmptyString) = (Return None, []).
Proof. intros frappe. split; reflexivity. Qed.

(** C10.  Whatever exception the processing of one supplier raises -- in the
    extraction of its location or in the computation of the distance -- the
    loop catches it, logs it with the supplier's name, and goes on: the loop
    does not raise, and its log is the log of the suppliers before, the entry
    of this supplier, and the log of the suppliers after.  The state it ends
    in is the one reached without that supplier, which is the running
    minimum, moved on a strict [<] only, of the distances of the remaining
    suppliers: it keeps the invariant of the scan over them, so that a scan
    started as [get_nearest_supplier] starts it ends with the first supplier
    at the least distance among the remaining ones, and that is what
    [get_nearest_supplier] returns. *)
Theorem supplier_exception_is_caught :
  forall (lon1 lat1 : number) (pre : list supplier) (s : supplier)
         (post : list supplier) (st : scan_state) (e : exn),
    supplier_try json_loads C lon1 lat1 s st = Raise e ->
    exists final,
      supplier_loop json_loads C lon1 lat1 (pre ++ s :: post) st =
      (Return final,
       scan_log json_loads C lon1 lat1 pre
         ++ supplier_log s e :: scan_log json_loads C lon1 lat1 post) /\
      supplier_loop json_loads C lon1 lat1 (pre ++ post) st =
      (Return final,
       scan_log json_loads C lon1 lat1 pre ++ scan_log json_loads C lon1 lat1 post) /\
      final = fold_left (scan_step json_loads C lon1 lat1) (pre ++ post) st /\
      (forall visited,
         scan_inv (supplier_distance json_loads C lon1 lat1) visited st ->
         scan_inv (supplier_distance json_loads C lon1 lat1)
                  (visited ++ pre ++ post) final) /\
      (st = (None, inf) ->
       nearest_spec (supplier_distance json_loads C lon1 lat1) (pre ++ post)
                    (fst final) /\
       forall (frappe : site) (w : string),
         w <> EmptyString ->
         warehouse_located json_loads frappe w (lon1, lat1) ->
         get_all frappe "Supplier" [("disabled", 0)] ["name"; "custom_geolocation"]
           = Return (pre ++ s :: post) ->
         fst (get_nearest_supplier json_loads C frappe (Some w)) = Return (fst final)).
Proof.
  intros lon1 lat1 pre s post st e Hraise.
  assert (Hd : supplier_distance json_loads C lon1 lat1 s = Raise e).
  { rewrite supplier_try_distance in Hraise.
    destruct (supplier_distance json_loads C lon1 lat1 s) as [[d|]|e'];
      cbn [bind] in Hraise; congruence. }
  exists (fold_left (scan_step json_loads C lon1 lat1) (pre ++ post) st).
  split; [|split; [|split; [reflexivity|split]]].
  - apply injective_projections; cbn [fst snd].
    + rewrite supplier_loop_result. f_equal. apply scan_skip.
      intros d. rewrite Hd. discriminate.
    + rewrite supplier_loop_log.
      change (pre ++ s :: post) with (pre ++ [s] ++ post).
      rewrite !scan_log_app. f_equal. unfold scan_log at 1. cbn [flat_map].
      rewrite Hd. reflexivity.
  - apply injective_projections; cbn [fst snd].
    + apply supplier_loop_result.
    + rewrite supplier_loop_log. apply scan_log_app.
  - intros visited Hinv. apply scan_inv_from, Hinv.
  - intros ->. split; [apply scan_result_spec|].
    intros frappe w Hw Hloc Hall.
    rewrite (nearest_located C Hw Hloc), Hall. cbn [fst]. do 2 f_equal.
    apply scan_skip. intros d. rewrite Hd. discriminate.
Qed.

End GetNearestSupplier.

(** * Rounding *)

Unset Implicit Arguments.

Lemma digits2_pos_size p : digits2_pos p = Pos.size p.
Proof. induction p; simpl; congruence. Qed.

Lemma Zdigits2_nonneg m : 0 <= Zdigits2 m.
Proof. destruct m; simpl; lia. Qed.

Lemma Zdigits2_gt m : 0 <= m -> m < 2 ^ Zdigits2 m.
Proof.
  destruct m as [|p|p]; cbn [Zdigits2]; [simpl; lia | | lia]. intros _.
  rewrite digits2_pos_size. pose proof (Pos.size_gt p) as H.
  apply Pos2Z.pos_lt_pos in H. rewrite Pos2Z.inj_pow in H. exact H.
Qed.

Lemma Zdigits2_le m : 0 < m -> 2 ^ (Zdigits2 m - 1) <= m.
Proof.
  destruct m as [|p|p]; cbn [Zdigits2]; try lia. intros _.
  rewrite digits2_pos_size. pose proof (Pos.size_le p) as H.
  apply Pos2Z.pos_le_pos in H. rewrite Pos2Z.inj_pow in H.
  replace (Z.pos (Pos.size p)) with (Z.succ (Z.pos (Pos.size p) - 1)) in H by lia.
  rewrite Z.pow_succ_r in H by lia. rewrite (Pos2Z.inj_xO p) in H.
  set (x := 2 ^ (Z.pos (Pos.size p) - 1)) in *. lia.
Qed.

Lemma Zdigits2_bound m k : 0 <= m -> 0 <= k -> m < 2 ^ k -> Zdigits2 m <= k.
Proof.
  intros Hm Hk Hlt. destruct (Z.eq_dec m 0) as [->|Hz]; [exact Hk|].
  pose proof (Zdigits2_le m ltac:(lia)) as Hle.
  pose proof (Zdigits2_nonneg m) as Hn.
  destruct (Z_lt_le_dec k (Zdigits2 m)) as [Hc|]; [|lia].
  exfalso. assert (2 ^ k <= 2 ^ (Zdigits2 m - 1)) by (apply Z.pow_le_mono_r; lia).
  lia.
Qed.

Lemma Zdigits2_mul a b :
  0 <= a -> 0 <= b -> Zdigits2 (a * b) <= Zdigits2 a + Zdigits2 b.
Proof.
  intros Ha Hb.
  pose proof (Zdigits2_gt a Ha). pose proof (Zdigits2_gt b Hb).
  pose proof (Zdigits2_nonneg a). pose proof (Zdigits2_nonneg b).
  apply Zdigits2_bound; [nia | lia |].
  rewrite Z.pow_add_r by lia. nia.
Qed.

Lemma shr_1_div2 mrs : 0 <= shr_m mrs -> shr_m (shr_1 mrs) = Z.div2 (shr_m mrs).
Proof.
  destruct mrs as [m r s]. destruct m as [|[p|p|]|p]; simpl; intros H;
    try reflexivity; lia.
Qed.

Lemma iter_shr_1 p :
  forall mrs, 0 <= shr_m mrs ->
              shr_m (iter_pos shr_1 p mrs) = Z.shiftr (shr_m mrs) (Z.pos p).
Proof.
  induction p as [p IH|p IH|]; intros mrs H; cbn [iter_pos].
  - assert (H1 : 0 <= shr_m (shr_1 mrs))
      by (rewrite shr_1_div2, Z.div2_spec by exact H; apply Z.shiftr_nonneg; exact H).
    assert (H2 : 0 <= shr_m (iter_pos shr_1 p (shr_1 mrs)))
      by (rewrite IH by exact H1; apply Z.shiftr_nonneg; exact H1).
    rewrite IH, IH, shr_1_div2, Z.div2_spec by assumption.
    rewrite !Z.shiftr_shiftr by lia. f_equal. lia.
  - assert (H2 : 0 <= shr_m (iter_pos shr_1 p mrs))
      by (rewrite IH by exact H; apply Z.shiftr_nonneg; exact H).
    rewrite IH, IH by assumption.
    rewrite !Z.shiftr_shiftr by lia. f_equal. lia.
  - rewrite shr_1_div2, Z.div2_spec by exact H. reflexivity.
Qed.

Lemma shr_spec mrs e n :
  0 <= shr_m mrs ->
  shr_m (fst (shr mrs e n)) = Z.shiftr (shr_m mrs) (Z.max 0 n) /\
  snd (shr mrs e n) = e + Z.max 0 n.
Proof.
  intros H. destruct n as [|p|p]; cbn [shr fst snd].
  - rewrite Z.shiftr_0_r. split; [reflexivity | lia].
  - rewrite iter_shr_1 by exact H. split; f_equal; lia.
  - rewrite Z.shiftr_0_r. split; [reflexivity | lia].
Qed.

Lemma Zdigits2_shiftr m n :
  0 <= m -> 0 <= n -> Zdigits2 (Z.shiftr m n) <= Z.max 0 (Zdigits2 m - n).
Proof.
  intros Hm Hn. rewrite Z.shiftr_div_pow2 by exact Hn.
  pose proof (Zdigits2_gt m Hm) as Hgt.
  pose proof (Zdigits2_nonneg m) as Hd.
  assert (Hp : 0 < 2 ^ n) by (apply Z.pow_pos_nonneg; lia).
  destruct (Z_lt_le_dec (Zdigits2 m) n) as [Hc|Hc].
  - assert (2 ^ Zdigits2 m <= 2 ^ n) by (apply Z.pow_le_mono_r; lia).
    rewrite Z.div_small by lia. simpl. lia.
  - apply Zdigits2_bound; [apply Z.div_pos; lia | lia |].
    apply Z.div_lt_upper_bound; [exact Hp|].
    rewrite Z.max_r by lia. rewrite <- Z.pow_add_r by lia.
    replace (n + (Zdigits2 m - n)) with (Zdigits2 m) by lia. exact Hgt.
Qed.

Lemma shr_record_of_loc_m m l : shr_m (shr_record_of_loc m l) = m.
Proof. destruct l as [|[| |]]; reflexivity. Qed.

Lemma shr_fexp_spec m e l :
  0 <= m ->
  0 <= shr_m (fst (shr_fexp prec emax m e l)) /\
  Zdigits2 (shr_m (fst (shr_fexp prec emax m e l))) <= prec /\
  snd (shr_fexp prec emax m e l) = Z.max e (fexp prec emax (Zdigits2 m + e)).
Proof.
  intros Hm. unfold shr_fexp.
  destruct (shr_spec (shr_record_of_loc m l) e
                     (fexp prec emax (Zdigits2 m + e) - e)) as [H1 H2];
    [rewrite shr_record_of_loc_m; exact Hm|].
  rewrite H1, H2, shr_record_of_loc_m.
  pose proof (Zdigits2_nonneg m) as Hd.
  split; [apply Z.shiftr_nonneg; exact Hm|]. split.
  - eapply Z.le_trans; [apply Zdigits2_shiftr; lia|].
    unfold fexp, emin, prec, emax. lia.
  - lia.
Qed.

Lemma round_nearest_even_bounds m l :
  m <= round_nearest_even m l <= m + 1.
Proof.
  destruct l as [|[| |]]; cbn [round_nearest_even]; try lia.
  destruct (Z.even m); lia.
Qed.

(** The shape of a rounded result: never a NaN, the sign as given, a
    mantissa of at most [prec] bits, and an infinity only when the exponent
    is out of range. *)
Lemma binary_round_aux_spec s m e l :
  0 <= m ->
  match binary_round_aux prec emax s m e l with
  | S754_zero s' => s' = s
  | S754_finite s' m' e' =>
      s' = s /\ Z.pos (digits2_pos m') <= prec /\ e' <= emax - prec
  | S754_infinity s' =>
      s' = s /\ emax - prec < Z.max e (fexp prec emax (Zdigits2 m + e)) + 1
  | S754_nan => False
  end.
Proof.
  intros Hm. unfold binary_round_aux.
  destruct (shr_fexp prec emax m e l) as [mrs1 e1] eqn:E1.
  pose proof (shr_fexp_spec m e l Hm) as (Hn1 & Hd1 & He1).
  rewrite E1 in Hn1, Hd1, He1. cbn [fst snd] in Hn1, Hd1, He1.
  pose proof (round_nearest_even_bounds (shr_m mrs1) (loc_of_shr_record mrs1)) as Hr.
  set (m2 := round_nearest_even (shr_m mrs1) (loc_of_shr_record mrs1)) in *.
  destruct (shr_fexp prec emax m2 e1 loc_Exact) as [mrs3 e3] eqn:E3.
  pose proof (shr_fexp_spec m2 e1 loc_Exact ltac:(lia)) as (Hn3 & Hd3 & He3).
  rewrite E3 in Hn3, Hd3, He3. cbn [fst snd] in Hn3, Hd3, He3.
  assert (Hd2 : Zdigits2 m2 <= prec + 1).
  { apply Zdigits2_bound; [lia | unfold prec; lia |].
    pose proof (Zdigits2_gt (shr_m mrs1) Hn1) as Hgt.
    assert (2 ^ Zdigits2 (shr_m mrs1) <= 2 ^ prec)
      by (apply Z.pow_le_mono_r; [lia | exact Hd1]).
    replace (prec + 1) with (Z.succ prec) by lia.
    rewrite Z.pow_succ_r by (unfold prec; lia). lia. }
  destruct (shr_m mrs3) as [|m3|m3] eqn:Em3; [reflexivity | | lia].
  destruct (e3 <=? emax - prec) eqn:Ee.
  - repeat split; [exact Hd3 | apply Z.leb_le; exact Ee].
  - apply Z.leb_gt in Ee. split; [reflexivity|].
    unfold fexp, emin, prec, emax in *. lia.
Qed.

(** * Symmetry of the operations under a change of sign *)

Lemma abs_cases x y : SFabs x = SFabs y -> y = x \/ y = SFopp x.
Proof.
  destruct x as [[|]|[|]| |[|] m e], y as [[|]|[|]| |[|] m' e'];
    cbn [SFabs SFopp negb]; intros H; inversion H; auto.
Qed.

Lemma abs_opp x : SFabs (SFopp x) = SFabs x.
Proof. destruct x; reflexivity. Qed.

Lemma binary_round_aux_abs s s' m e l :
  SFabs (binary_round_aux prec emax s m e l) =
  SFabs (binary_round_aux prec emax s' m e l).
Proof.
  unfold binary_round_aux.
  destruct (shr_fexp prec emax m e l) as [mrs1 e1].
  destruct (shr_fexp prec emax _ e1 loc_Exact) as [mrs3 e3].
  destruct (shr_m mrs3); [reflexivity | | reflexivity].
  destruct (e3 <=? emax - prec); reflexivity.
Qed.

Lemma binary_round_abs s s' m e :
  SFabs (binary_round prec emax s m e) = SFabs (binary_round prec emax s' m e).
Proof.
  unfold binary_round. destruct (shl_align m e _) as [mz ez].
  apply binary_round_aux_abs.
Qed.

Lemma binary_normalize_opp m e :
  SFabs (binary_normalize prec emax (- m) e false) =
  SFabs (binary_normalize prec emax m e false).
Proof.
  destruct m; cbn [Z.opp binary_normalize]; [reflexivity | |]; apply binary_round_abs.
Qed.

Lemma sub_swap_abs x y : SFabs (sub x y) = SFabs (sub y x).
Proof.
  unfold sub, SFsub.
  destruct x as [sx|sx| |sx mx ex], y as [sy|sy| |sy my ey];
    try (destruct sx, sy; reflexivity); try (destruct sx; reflexivity);
    try (destruct sy; reflexivity); try reflexivity.
  cbv zeta. rewrite (Z.min_comm ey ex).
  rewrite <- binary_normalize_opp. f_equal. f_equal. lia.
Qed.

Lemma div_two_abs x y : SFabs x = SFabs y -> SFabs (div x two) = SFabs (div y two).
Proof.
  intros H. destruct (abs_cases x y H) as [->| ->]; [reflexivity|].
  destruct x as [s|s| |s m e]; try (destruct s; reflexivity); try reflexivity.
  unfold div, SFdiv, two, SFopp.
  destruct (SFdiv_core_binary prec emax (Z.pos m) e _ _) as [[mz ez] lz].
  apply binary_round_aux_abs.
Qed.

Lemma abs_classes x y :
  SFabs x = SFabs y ->
  is_nan x = is_nan y /\ is_inf x = is_inf y /\ is_finite x = is_finite y.
Proof.
  intros H. destruct (abs_cases x y H) as [->| ->]; [auto|].
  destruct x; auto.
Qed.

Lemma math_1_abs func x y :
  (forall z, func (SFopp z) = SFopp (func z)) ->
  SFabs x = SFabs y ->
  same_magnitude (math_1 func x) (math_1 func y).
Proof.
  intros Hodd H.
  assert (Hr : SFabs (func x) = SFabs (func y)).
  { destruct (abs_cases x y H) as [->| ->]; [reflexivity|].
    rewrite Hodd, abs_opp. reflexivity. }
  destruct (abs_classes _ _ H) as (Hn & _ & Hf).
  destruct (abs_classes _ _ Hr) as (Hrn & Hri & _).
  unfold math_1. rewrite Hn, Hf, Hrn, Hri.
  destruct (is_nan (func y) && negb (is_nan y)); [reflexivity|].
  destruct (is_inf (func y) && is_finite y); [reflexivity | exact Hr].
Qed.

Lemma math_1_raises func x e : math_1 func x = Raise e -> e = math_domain_error.
Proof.
  unfold math_1.
  destruct (is_nan (func x) && negb (is_nan x)); [congruence|].
  destruct (is_inf (func x) && is_finite x); congruence.
Qed.

Lemma mul_comm x y : mul x y = mul y x.
Proof.
  unfold mul, SFmul.
  destruct x as [sx|sx| |sx mx ex], y as [sy|sy| |sy my ey];
    try (rewrite (xorb_comm sx sy)); try reflexivity.
  rewrite (Pos.mul_comm mx my), (Z.add_comm ex ey). reflexivity.
Qed.

Section Symmetry.

Variable C : libm.
Hypothesis laws : libm_laws C.

Lemma float_pow2_abs x y : SFabs x = SFabs y -> float_pow2 C x = float_pow2 C y.
Proof.
  intros H. destruct (abs_cases x y H) as [->| ->]; [reflexivity|].
  destruct x as [[|]|[|]| |[|] m e]; reflexivity.
Qed.

Lemma math_sin_half_abs x y :
  SFabs x = SFabs y ->
  same_magnitude (math_sin C (div x two)) (math_sin C (div y two)).
Proof.
  intros H. apply math_1_abs; [apply (sin_odd laws) | apply div_two_abs, H].
Qed.

Lemma haversine_formula_symmetric dlat dlat' lat1 lat2 dlon dlon' :
  SFabs dlat = SFabs dlat' -> SFabs dlon = SFabs dlon' ->
  haversine_formula C dlat lat1 lat2 dlon = haversine_formula C dlat' lat2 lat1 dlon'.
Proof.
  intros Hlat Hlon. unfold haversine_formula.
  pose proof (math_sin_half_abs _ _ Hlat) as H1.
  destruct (math_sin C (div dlat two)) as [s1|e1],
           (math_sin C (div dlat' two)) as [s1'|e1'];
    cbn [same_magnitude bind] in *; try contradiction; [|congruence].
  rewrite (float_pow2_abs _ _ H1).
  destruct (float_pow2 C s1') as [p1|e]; cbn [bind]; [|reflexivity].
  destruct (math_cos C lat1) as [c1|e1] eqn:E1,
           (math_cos C lat2) as [c2|e2] eqn:E2; cbn [bind];
    try apply math_1_raises in E1; try apply math_1_raises in E2;
    try congruence.
  pose proof (math_sin_half_abs _ _ Hlon) as H2.
  destruct (math_sin C (div dlon two)) as [s2|e2],
           (math_sin C (div dlon' two)) as [s2'|e2'];
    cbn [same_magnitude bind] in *; try contradiction; [|congruence].
  rewrite (float_pow2_abs _ _ H2), (mul_comm c1 c2). reflexivity.
Qed.

Lemma haversine_distance_formula lon1 lat1 lon2 lat2 :
  haversine_distance C lon1 lat1 lon2 lat2 =
  (f_lon1 <- py_float lon1 ;;
   f_lat1 <- py_float lat1 ;;
   f_lon2 <- py_float lon2 ;;
   f_lat2 <- py_float lat2 ;;
   haversine_formula C (sub (radians f_lat2) (radians f_lat1))
                     (radians f_lat1) (radians f_lat2)
                     (sub (radians f_lon2) (radians f_lon1))).
Proof. reflexivity. Qed.

Lemma py_float_raises x e :
  py_float x = Raise e -> e = OverflowError "int too large to convert to float".
Proof.
  destruct x as [n|b|f]; cbn [py_float]; try discriminate.
  destruct (is_inf (of_Z n)); congruence.
Qed.

Lemma haversine_symmetric lon1 lat1 lon2 lat2 :
  haversine_distance C lon1 lat1 lon2 lat2 = haversine_distance C lon2 lat2 lon1 lat1.
Proof.
  rewrite !haversine_distance_formula.
  destruct (py_float lon1) as [a|ea] eqn:Ea, (py_float lat1) as [b|eb] eqn:Eb,
           (py_float lon2) as [c|ec] eqn:Ec, (py_float lat2) as [d|ed] eqn:Ed;
    cbn [bind];
    try apply py_float_raises in Ea; try apply py_float_raises in Eb;
    try apply py_float_raises in Ec; try apply py_float_raises in Ed;
    try congruence.
  apply haversine_formula_symmetric; apply sub_swap_abs.
Qed.

End Symmetry.

(** * Finite results *)

Lemma double_bounded x : double x = true -> bounded_float x = true.
Proof.
  destruct x as [s|s| |s m e]; try reflexivity.
  unfold double, valid_binary, bounded, canonical_mantissa, bounded_float.
  intros H. apply andb_prop in H as [Hc He]. apply Z.eqb_eq in Hc.
  apply andb_true_intro. split; [|exact He].
  apply Z.leb_le. unfold fexp, emin, prec, emax in *. lia.
Qed.

Lemma binary_round_shape s m e :
  match binary_round prec emax s m e with
  | S754_nan => False
  | S754_finite _ m' e' => Z.pos (digits2_pos m') <= prec /\ e' <= emax - prec
  | _ => True
  end.
Proof.
  unfold binary_round. destruct (shl_align m e _) as [mz ez].
  pose proof (binary_round_aux_spec s (Z.pos mz) ez loc_Exact ltac:(lia)) as H.
  destruct (binary_round_aux prec emax s (Z.pos mz) ez loc_Exact); tauto.
Qed.

Lemma of_Z_shape n :
  is_inf (of_Z n) = false -> is_finite (of_Z n) = true /\ bounded_float (of_Z n) = true.
Proof.
  unfold of_Z. destruct n as [|p|p]; cbn [binary_normalize]; [auto | |].
  - pose proof (binary_round_shape false p 0) as H.
    destruct (binary_round prec emax false p 0) as [s|s| |s m e];
      cbn [is_inf is_finite bounded_float]; try discriminate; try tauto.
    intros _. split; [reflexivity|].
    apply andb_true_intro. split; apply Z.leb_le; apply H.
  - pose proof (binary_round_shape true p 0) as H.
    destruct (binary_round prec emax true p 0) as [s|s| |s m e];
      cbn [is_inf is_finite bounded_float]; try discriminate; try tauto.
    intros _. split; [reflexivity|].
    apply andb_true_intro. split; apply Z.leb_le; apply H.
Qed.

(** The conversion of a finite number either overflows or gives a finite
    float with a mantissa and an exponent in range. *)
Lemma py_float_finite x f :
  finite_number x = true -> py_float x = Return f ->
  is_finite f = true /\ bounded_float f = true.
Proof.
  destruct x as [n|b|g]; cbn [finite_number py_float].
  - intros _. destruct (is_inf (of_Z n)) eqn:E; [discriminate|].
    intros [= <-]. apply of_Z_shape, E.
  - intros _ [= <-]. destruct b; split; reflexivity.
  - intros H [= <-]. apply andb_prop in H as [Hf Hd].
    split; [exact Hf | apply double_bounded, Hd].
Qed.

Lemma mul_finite_spec sx mx ex sy my ey :
  match mul (S754_finite sx mx ex) (S754_finite sy my ey) with
  | S754_zero _ => True
  | S754_finite _ m e => Z.pos (digits2_pos m) <= prec /\ e <= emax - prec
  | S754_infinity _ =>
      emax - prec <
      Z.max (ex + ey)
            (fexp prec emax (Zdigits2 (Z.pos mx) + Zdigits2 (Z.pos my) + (ex + ey))) + 1
  | S754_nan => False
  end.
Proof.
  unfold mul, SFmul.
  pose proof (binary_round_aux_spec (xorb sx sy) (Z.pos (mx * my)) (ex + ey)
                                    loc_Exact ltac:(lia)) as H.
  destruct (binary_round_aux prec emax (xorb sx sy) (Z.pos (mx * my)) (ex + ey)
                             loc_Exact); try tauto.
  destruct H as [_ H]. eapply Z.lt_le_trans; [exact H|].
  pose proof (Zdigits2_mul (Z.pos mx) (Z.pos my) ltac:(lia) ltac:(lia)) as Hd.
  rewrite <- Pos2Z.inj_mul in Hd.
  unfold fexp, emin, prec, emax in *. lia.
Qed.

Lemma radians_finite f :
  is_finite f = true -> bounded_float f = true -> is_finite (radians f) = true.
Proof.
  destruct f as [s|s| |s m e]; try discriminate; [reflexivity|].
  intros _ H. cbn [bounded_float] in H. apply andb_prop in H as [Hd He].
  apply Z.leb_le in Hd, He.
  unfold radians, degToRad.
  pose proof (mul_finite_spec s m e false 5030569068109113 (-58)) as H.
  destruct (mul (S754_finite s m e) (S754_finite false 5030569068109113 (-58)));
    try reflexivity; [exfalso | contradiction].
  change (Zdigits2 (Z.pos 5030569068109113)) with 53 in H.
  cbn [Zdigits2] in H. unfold fexp, emin, prec, emax in *. lia.
Qed.

Lemma sub_self x : is_finite x = true -> sub x x = zero.
Proof.
  destruct x as [[|]|s| |s m e]; try discriminate; try reflexivity.
  intros _. unfold sub, SFsub. cbv zeta.
  rewrite Z.sub_diag. reflexivity.
Qed.

Lemma unit_double_finite x : unit_double x = true -> is_finite x = true.
Proof.
  unfold unit_double. intros H. apply andb_prop in H as [H _].
  apply andb_prop in H as [H _]. exact H.
Qed.

Lemma unit_double_bounds s m e :
  unit_double (S754_finite s m e) = true ->
  Z.pos (digits2_pos m) <= 53 /\ e <= -52.
Proof.
  unfold unit_double. intros H. apply andb_prop in H as [H Hle].
  apply andb_prop in H as [_ Hd]. apply double_bounded in Hd.
  cbn [bounded_float] in Hd. apply andb_prop in Hd as [Hd _].
  apply Z.leb_le in Hd. split; [exact Hd|].
  unfold leb, SFleb, SFabs, one, SFcompare in Hle.
  destruct (Z.compare_spec e (-52)); try lia; discriminate.
Qed.

Lemma mul_unit_finite x y :
  unit_double x = true -> unit_double y = true -> is_finite (mul x y) = true.
Proof.
  intros Hx Hy.
  pose proof (unit_double_finite _ Hx) as Fx.
  pose proof (unit_double_finite _ Hy) as Fy.
  destruct x as [sx|sx| |sx mx ex], y as [sy|sy| |sy my ey];
    try discriminate; try reflexivity.
  apply unit_double_bounds in Hx, Hy.
  pose proof (mul_finite_spec sx mx ex sy my ey) as H.
  destruct (mul (S754_finite sx mx ex) (S754_finite sy my ey));
    try reflexivity; [exfalso | contradiction].
  cbn [Zdigits2] in H. unfold fexp, emin, prec, emax in *. lia.
Qed.

Section IdenticalPoints.

Variable C : libm.
Hypothesis laws : libm_laws C.

Lemma math_returns_finite func x :
  is_finite (func x) = true -> math_1 func x = Return (func x).
Proof.
  unfold math_1. destruct (func x); try discriminate; reflexivity.
Qed.

Lemma math_cos_finite x :
  is_finite x = true ->
  math_cos C x = Return (c_cos C x) /\ unit_double (c_cos C x) = true.
Proof.
  intros H. pose proof (cos_range laws x H) as Hu. split; [|exact Hu].
  apply math_returns_finite, unit_double_finite, Hu.
Qed.

Lemma haversine_formula_zero lat :
  is_finite lat = true -> haversine_formula C zero lat lat zero = Return zero.
Proof.
  intros Hlat. unfold haversine_formula.
  change (div zero two) with zero.
  assert (Hsin : math_sin C zero = Return zero).
  { unfold math_sin, math_1. rewrite (sin_zero laws). reflexivity. }
  rewrite Hsin. cbn [bind].
  change (float_pow2 C zero) with (@Return float zero). cbn [bind].
  destruct (math_cos_finite lat Hlat) as [Hcos Hu]. rewrite Hcos. cbn [bind].
  pose proof (mul_unit_finite _ _ Hu Hu) as Hcc.
  assert (Ha : add zero (mul (mul (c_cos C lat) (c_cos C lat)) zero) = zero).
  { destruct (mul (c_cos C lat) (c_cos C lat)) as [[|]|s| |[|] m e];
      try discriminate; reflexivity. }
  rewrite Ha.
  change (math_sqrt zero) with (@Return float zero). cbn [bind].
  assert (Hasin : math_asin C zero = Return zero).
  { unfold math_asin, math_1. rewrite (asin_zero laws). reflexivity. }
  rewrite Hasin. reflexivity.
Qed.

Lemma haversine_identical lon lat :
  finite_number lon = true -> finite_number lat = true ->
  haversine_distance C lon lat lon lat =
  (_ <- py_float lon ;; _ <- py_float lat ;; Return zero).
Proof.
  intros Hlon Hlat. rewrite haversine_distance_formula.
  destruct (py_float lon) as [a|ea] eqn:Ea; [|reflexivity].
  destruct (py_float lat) as [b|eb] eqn:Eb; [|reflexivity].
  cbn [bind].
  destruct (py_float_finite lon a Hlon Ea) as [Fa Ba].
  destruct (py_float_finite lat b Hlat Eb) as [Fb Bb].
  rewrite !sub_self by (apply radians_finite; assumption).
  apply haversine_formula_zero, radians_finite; assumption.
Qed.

End IdenticalPoints.

(** * Non-negative results *)

Lemma sub_not_nan a b :
  is_finite a = true -> is_finite b = true -> is_nan (sub a b) = false.
Proof.
  destruct a as [sa|sa| |sa ma ea], b as [sb|sb| |sb mb eb];
    try discriminate; intros _ _;
    try (destruct sa, sb; reflexivity); try reflexivity.
  unfold sub, SFsub. cbv zeta.
  destruct (cond_Zopp sa (Z.pos (fst (shl_align ma ea (Z.min ea eb)))) -
            cond_Zopp sb (Z.pos (fst (shl_align mb eb (Z.min ea eb)))))
    as [|p|p]; cbn [binary_normalize]; [reflexivity | |].
  - pose proof (binary_round_shape false p (Z.min ea eb)) as H.
    destruct (binary_round prec emax false p (Z.min ea eb)); tauto.
  - pose proof (binary_round_shape true p (Z.min ea eb)) as H.
    destruct (binary_round prec emax true p (Z.min ea eb)); tauto.
Qed.

Lemma add_not_nan p t :
  is_finite p = true -> is_nan t = false -> is_nan (add p t) = false.
Proof.
  destruct p as [sa|sa| |sa ma ea], t as [sb|sb| |sb mb eb];
    try discriminate; intros _ _;
    try (destruct sa, sb; reflexivity); try reflexivity.
  unfold add, SFadd. cbv zeta.
  destruct (cond_Zopp sa (Z.pos (fst (shl_align ma ea (Z.min ea eb)))) +
            cond_Zopp sb (Z.pos (fst (shl_align mb eb (Z.min ea eb)))))
    as [|p|p]; cbn [binary_normalize]; [reflexivity | |].
  - pose proof (binary_round_shape false p (Z.min ea eb)) as H.
    destruct (binary_round prec emax false p (Z.min ea eb)); tauto.
  - pose proof (binary_round_shape true p (Z.min ea eb)) as H.
    destruct (binary_round prec emax true p (Z.min ea eb)); tauto.
Qed.

Lemma mul_not_nan a b :
  is_finite a = true -> is_finite b = true -> is_nan (mul a b) = false.
Proof.
  destruct a as [sa|sa| |sa ma ea], b as [sb|sb| |sb mb eb];
    try discriminate; intros _ _; try reflexivity.
  pose proof (mul_finite_spec sa ma ea sb mb eb) as H.
  destruct (mul (S754_finite sa ma ea) (S754_finite sb mb eb)); tauto.
Qed.

Lemma div_core_nonneg m e m2 e2 :
  0 <= fst (fst (SFdiv_core_binary prec emax (Z.pos m) e (Z.pos m2) e2)).
Proof.
  unfold SFdiv_core_binary.
  set (s := e - e2 - _).
  set (m' := match s with Z.pos _ => Z.shiftl (Z.pos m) s | 0 => Z.pos m | Z.neg _ => 0 end).
  assert (Hm : 0 <= m').
  { subst m'. destruct s; [lia | apply Z.shiftl_nonneg; lia | lia]. }
  pose proof (Z_div_mod m' (Z.pos m2) ltac:(lia)) as H.
  destruct (Z.div_eucl m' (Z.pos m2)) as [q r]. cbn [fst].
  destruct H as [H1 H2]. nia.
Qed.

Lemma div_two_not_nan x : is_nan x = false -> is_nan (div x two) = false.
Proof.
  destruct x as [s|s| |s m e]; try discriminate; intros _; try reflexivity.
  unfold div, SFdiv, two.
  pose proof (div_core_nonneg m e 4503599627370496 (-51)) as Hq.
  destruct (SFdiv_core_binary prec emax (Z.pos m) e (Z.pos 4503599627370496) (-51))
    as [[mz ez] lz]. cbn [fst] in Hq.
  pose proof (binary_round_aux_spec (xorb s false) mz ez lz Hq) as H.
  destruct (binary_round_aux prec emax (xorb s false) mz ez lz); tauto.
Qed.

Lemma nonneg_mul_positive a m e :
  nonneg a = true -> nonneg (mul a (S754_finite false m e)) = true.
Proof.
  destruct a as [[|]|[|]| |[|] ma ea]; try discriminate; intros _; try reflexivity.
  pose proof (binary_round_aux_spec false (Z.pos (ma * m)) (ea + e) loc_Exact
                                    ltac:(lia)) as H.
  unfold mul, SFmul. cbn [xorb].
  destruct (binary_round_aux prec emax false (Z.pos (ma * m)) (ea + e) loc_Exact)
    as [s|s| |s m' e']; try contradiction.
  - subst s. reflexivity.
  - destruct H as [-> _]. reflexivity.
  - destruct H as [-> _]. reflexivity.
Qed.

Lemma math_sqrt_outcome a :
  is_nan a = false ->
  math_sqrt a = Raise math_domain_error \/
  exists r, math_sqrt a = Return r /\ nonneg r = true.
Proof.
  destruct a as [s|[|]| |[|] m e]; try discriminate; intros _.
  - right. exists (S754_zero s). split; [reflexivity | destruct s; reflexivity].
  - left. reflexivity.
  - right. exists inf. split; reflexivity.
  - left. reflexivity.
  - unfold math_sqrt, math_1, sqrt, SFsqrt.
    assert (Hq : 0 <= fst (fst (SFsqrt_core_binary prec emax (Z.pos m) e))).
    { unfold SFsqrt_core_binary.
      set (m' := match _ with Z.pos _ => _ | 0 => _ | Z.neg _ => _ end).
      pose proof (Z.sqrt_nonneg m') as H. rewrite <- Z.sqrtrem_sqrt in H.
      destruct (Z.sqrtrem m') as [q r]. exact H. }
    destruct (SFsqrt_core_binary prec emax (Z.pos m) e) as [[mz ez] lz].
    cbn [fst] in Hq.
    pose proof (binary_round_aux_spec false mz ez lz Hq) as H.
    destruct (binary_round_aux prec emax false mz ez lz) as [s|s| |s m' e'];
      try contradiction.
    + subst s. right. eexists. split; reflexivity.
    + left. reflexivity.
    + destruct H as [-> _]. right. eexists. split; reflexivity.
Qed.

Lemma leb_false_ltb a b :
  is_nan a = false -> is_nan b = false -> leb a b = false -> ltb b a = true.
Proof.
  unfold leb, ltb, SFleb, SFltb, SFcompare.
  destruct a as [[|]|[|]| |[|] ma ea], b as [[|]|[|]| |[|] mb eb];
    try discriminate; try reflexivity; intros _ _; compare_cases.
Qed.

Lemma ltb_leb_false a b : ltb a b = true -> leb b a = false.
Proof.
  unfold leb, ltb, SFleb, SFltb, SFcompare.
  destruct a as [[|]|[|]| |[|] ma ea], b as [[|]|[|]| |[|] mb eb];
    try discriminate; try reflexivity; compare_cases.
Qed.

Lemma nonneg_not_nan x : nonneg x = true -> is_nan x = false.
Proof. destruct x; try reflexivity. discriminate. Qed.

Section Outcome.

Variable C : libm.
Hypothesis laws : libm_laws C.

Lemma math_sin_outcome x :
  is_nan x = false ->
  math_sin C x = Raise math_domain_error \/
  exists s, math_sin C x = Return s /\ unit_double s = true.
Proof.
  intros Hx. destruct (is_finite x) eqn:Hf.
  - right. exists (c_sin C x). pose proof (sin_range laws x Hf) as Hu.
    split; [|exact Hu]. apply math_returns_finite, unit_double_finite, Hu.
  - left. destruct x as [s|s| |s m e]; try discriminate.
    unfold math_sin, math_1. rewrite (sin_inf laws). reflexivity.
Qed.

Lemma float_pow2_unit s :
  unit_double s = true ->
  exists p, float_pow2 C s = Return p /\ nonneg p = true /\ is_finite p = true.
Proof.
  intros Hu. pose proof (unit_double_finite _ Hu) as Hf.
  destruct s as [sg|sg| |sg m e]; try discriminate.
  - exists zero. repeat split.
  - change (unit_double (S754_finite sg m e))
      with (unit_double (S754_finite false m e)) in Hu.
    assert (Hpow : float_pow2 C (S754_finite sg m e) =
                   if eqb (S754_finite false m e) one then Return one
                   else if is_inf (c_pow C (S754_finite false m e) two)
                        then Raise (OverflowError "(34, 'Numerical result out of range')")
                        else Return (c_pow C (S754_finite false m e) two))
      by (destruct sg; reflexivity).
    rewrite Hpow. destruct (eqb (S754_finite false m e) one).
    + exists one. repeat split.
    + pose proof (pow_range laws _ Hu eq_refl) as H.
      apply andb_prop in H as [Hn Hfin].
      exists (c_pow C (S754_finite false m e) two).
      destruct (c_pow C (S754_finite false m e) two); try discriminate; auto.
Qed.

Lemma math_asin_outcome r :
  nonneg r = true ->
  math_asin C r = Raise math_domain_error \/
  exists angle, math_asin C r = Return angle /\
                nonneg angle = true /\ is_finite angle = true.
Proof.
  intros Hr. pose proof (nonneg_not_nan _ Hr) as Hn.
  destruct (leb r one) eqn:Hle.
  - right. exists (c_asin C r).
    pose proof (asin_range laws r Hr Hle) as H. apply andb_prop in H as [H1 H2].
    split; [apply math_returns_finite, H2 | auto].
  - left. unfold math_asin, math_1.
    rewrite (asin_domain laws r (leb_false_ltb r one Hn eq_refl Hle)).
    cbn [is_nan]. rewrite Hn. reflexivity.
Qed.

Lemma haversine_formula_outcome dlat lat1 lat2 dlon :
  is_nan dlat = false -> is_nan dlon = false ->
  is_finite lat1 = true -> is_finite lat2 = true ->
  match haversine_formula C dlat lat1 lat2 dlon with
  | Return d => nonneg d = true
  | Raise e => e = math_domain_error
  end.
Proof.
  intros Hdlat Hdlon Hlat1 Hlat2. unfold haversine_formula.
  destruct (math_sin_outcome _ (div_two_not_nan _ Hdlat)) as [H|(s1 & H & U1)];
    rewrite H; cbn [bind]; [reflexivity|].
  destruct (float_pow2_unit _ U1) as (p1 & Hp1 & N1 & F1). rewrite Hp1. cbn [bind].
  destruct (math_cos_finite C laws lat1 Hlat1) as [Hc1 Uc1]. rewrite Hc1. cbn [bind].
  destruct (math_cos_finite C laws lat2 Hlat2) as [Hc2 Uc2]. rewrite Hc2. cbn [bind].
  destruct (math_sin_outcome _ (div_two_not_nan _ Hdlon)) as [H2|(s2 & H2 & U2)];
    rewrite H2; cbn [bind]; [reflexivity|].
  destruct (float_pow2_unit _ U2) as (p2 & Hp2 & N2 & F2). rewrite Hp2. cbn [bind].
  pose proof (mul_unit_finite _ _ Uc1 Uc2) as Hcc.
  pose proof (add_not_nan p1 _ F1 (mul_not_nan _ p2 Hcc F2)) as Ha.
  destruct (math_sqrt_outcome _ Ha) as [Hs|(root & Hs & Nr)];
    rewrite Hs; cbn [bind]; [reflexivity|].
  destruct (math_asin_outcome _ Nr) as [Has|(angle & Has & Na & Fa)];
    rewrite Has; cbn [bind]; [reflexivity|].
  rewrite (mul_comm two angle).
  apply nonneg_mul_positive. apply nonneg_mul_positive. exact Na.
Qed.

End Outcome.

(** * The laws hold of the library of first-order approximations *)

Lemma small_angle_laws : libm_laws small_angle.
Proof.
  constructor; cbn [small_angle c_sin c_cos c_asin c_pow].
  - intros [s|s| |s m e]; try reflexivity. unfold clamp_unit. cbn [SFopp].
    change (unit_double (S754_finite (negb s) m e))
      with (unit_double (S754_finite s m e)).
    destruct (unit_double (S754_finite s m e)); destruct s; reflexivity.
  - reflexivity.
  - reflexivity.
  - intros [s|s| |s m e]; try discriminate; intros _.
    + destruct s; reflexivity.
    + unfold clamp_unit. destruct (unit_double (S754_finite s m e)) eqn:E;
        [exact E | destruct s; reflexivity].
  - intros x Hx. rewrite Hx. reflexivity.
  - reflexivity.
  - intros x Hn Hle. pose proof (nonneg_not_nan _ Hn) as Hnan.
    destruct x as [[|]|[|]| |[|] m e]; try discriminate; try reflexivity.
    cbn [SFabs]. rewrite Hle. cbn [is_finite]. rewrite andb_true_r. exact Hn.
  - intros x H. pose proof (ltb_leb_false _ _ H) as Hle.
    destruct x as [[|]|[|]| |[|] m e]; try discriminate; try reflexivity.
    cbn [SFabs]. rewrite Hle. reflexivity.
  - intros x Hu Hpos. destruct x as [[|]|[|]| |[|] m e]; try discriminate.
    apply andb_true_intro. split.
    + apply nonneg_mul_positive. reflexivity.
    + apply mul_unit_finite; exact Hu.
Qed.

(** * Magnitudes *)

Lemma iter_xO_digits m d :
  digits2_pos (Pos.iter xO m d) = (digits2_pos m + d)%positive.
Proof.
  induction d as [|d IH] using Pos.peano_ind.
  - cbn [Pos.iter digits2_pos]. lia.
  - rewrite Pos.iter_succ. cbn [digits2_pos]. rewrite IH. lia.
Qed.

(** Rounding an integer mantissa does not overflow when the number is below
    [2 ** 1023]. *)
Lemma binary_round_in_range s m e :
  Z.pos (digits2_pos m) + e <= 1023 -> e <= 970 ->
  is_inf (binary_round prec emax s m e) = false.
Proof.
  intros Hd He. unfold binary_round, shl_align.
  set (fe := fexp prec emax (Z.pos (digits2_pos m) + e)).
  assert (Hfe : fe <= 970) by (unfold fe, fexp, emin, prec, emax; lia).
  destruct (fe - e) as [|d|d] eqn:Ediff.
  - pose proof (binary_round_aux_spec s (Z.pos m) e loc_Exact ltac:(lia)) as H.
    destruct (binary_round_aux prec emax s (Z.pos m) e loc_Exact); try reflexivity.
    exfalso. destruct H as [_ H]. cbn [Zdigits2] in H. fold fe in H.
    unfold prec, emax in H. lia.
  - pose proof (binary_round_aux_spec s (Z.pos m) e loc_Exact ltac:(lia)) as H.
    destruct (binary_round_aux prec emax s (Z.pos m) e loc_Exact); try reflexivity.
    exfalso. destruct H as [_ H]. cbn [Zdigits2] in H. fold fe in H.
    unfold prec, emax in H. lia.
  - pose proof (binary_round_aux_spec s (Z.pos (Pos.iter xO m d)) fe loc_Exact
                                      ltac:(lia)) as H.
    destruct (binary_round_aux prec emax s (Z.pos (Pos.iter xO m d)) fe loc_Exact);
      try reflexivity.
    exfalso. destruct H as [_ H]. cbn [Zdigits2] in H.
    rewrite iter_xO_digits, Pos2Z.inj_add in H.
    replace (Z.pos (digits2_pos m) + Z.pos d + fe)
      with (Z.pos (digits2_pos m) + e) in H by lia.
    fold fe in H. unfold prec, emax in H. lia.
Qed.

Lemma of_Z_in_range n : Z.abs n < 2 ^ 1023 -> is_inf (of_Z n) = false.
Proof.
  intros H. unfold of_Z. destruct n as [|p|p]; cbn [binary_normalize]; [reflexivity | |];
    apply binary_round_in_range; try lia;
    pose proof (Zdigits2_bound (Z.pos p) 1023 ltac:(lia) ltac:(lia)) as Hd;
    cbn [Zdigits2 Z.abs] in *; lia.
Qed.













Section Term.

Variable C : libm.
Hypothesis laws : libm_laws C.





End Term.

(** * Tabulated libraries *)








(** * Properties of [haversine_distance] *)

Section Haversine.

Variable C : libm.
Hypothesis laws : libm_laws C.

(** C8 (as amended).  With a C library whose sine is odd, the distance is
    symmetric for all numbers: exchanging the two points gives the same
    float, or the same exception.  For two identical points with finite
    coordinates (integers, booleans or finite doubles) the distance is
    [0.0], unless the conversion [float(...)] of an integer coordinate
    overflows, in which case that [OverflowError] is raised. *)
Theorem haversine_symmetric_zero_at_identical :
  (forall lon1 lat1 lon2 lat2 : number,
     haversine_distance C lon1 lat1 lon2 lat2 =
     haversine_distance C lon2 lat2 lon1 lat1) /\
  (forall lon lat : number,
     finite_number lon = true -> finite_number lat = true ->
     haversine_distance C lon lat lon lat =
     (_ <- py_float lon ;; _ <- py_float lat ;; Return zero)).
Proof.
  split.
  - intros. apply haversine_symmetric, laws.
  - intros lon lat Hlon Hlat. exact (haversine_identical C laws lon lat Hlon Hlat).
Qed.


End Haversine.

(** * Examples *)

(** The nested coordinates [[[2.5, 48.8]]] yield the point (2.5, 48.8). *)
Lemma nested_point_is_extracted :
  get_coordinates_from_geojson example_loads (Some (point_text "[[[2.5, 48.8]]]"))
  = Return (Some (NFloat f_2_5, NFloat f_48_8)).
Proof.
  apply (@extractor_returns_first_point example_loads
           (point_text "[[[2.5, 48.8]]]")
           (point_doc (JList [JList [JList [JFloat f_2_5; JFloat f_48_8]]]))
           []
           (point_feature (JList [JList [JList [JFloat f_2_5; JFloat f_48_8]]]))
           []
           (NFloat f_2_5, NFloat f_48_8)).
  - discriminate.
  - reflexivity.
  - reflexivity.
  - constructor.
  - split; [reflexivity|].
    exists (JFloat f_2_5), (JFloat f_48_8), [].
    split; [apply normalized_iff_unwrap; reflexivity | split; reflexivity].
Defined.

(** A feature that is not a mapping is not skipped: the number five ahead of
    a point feature makes the extractor raise, although the point feature
    after it yields (1, 2). *)
Lemma stray_number_is_not_skipped :
  example_loads stray_number_text = Return stray_number_doc /\
  (forall q, ~ yields_point (JInt 5) q) /\
  yields_point
    (JDict [("geometry", JDict [("type", JStr "Point");
                                ("coordinates", JList [JInt 1; JInt 2])])])
    (NInt 1, NInt 2) /\
  get_coordinates_from_geojson example_loads (Some stray_number_text)
  = Raise (AttributeError "'int' object has no attribute 'get'").
Proof.
  split; [reflexivity|]. split; [|split; [|reflexivity]].
  - intros q [H _]. discriminate H.
  - split; [reflexivity|]. exists (JInt 1), (JInt 2), [].
    split; [apply normalized_iff_unwrap; reflexivity | split; reflexivity].
Qed.

(** A text that decodes to a mapping whose only feature is [null]: the text
    is not empty, the decoder accepts it and no feature yields a point, yet
    the extractor does not return absent but raises. *)
Lemma null_feature_raises :
  example_loads null_feature_text = Return null_feature_doc /\
  (forall p, ~ yields_point JNull p) /\
  get_coordinates_from_geojson example_loads (Some null_feature_text)
  = Raise (AttributeError "'NoneType' object has no attribute 'get'").
Proof.
  split; [reflexivity|]. split; [|reflexivity].
  intros p [H _]. discriminate H.
Qed.

(** Warehouse at the origin, suppliers A at (0, 1), B at (1, 0) and one
    without a location. *)
Lemma nearest_of_example_site :
  exists r,
    fst (get_nearest_supplier example_loads small_angle example_site (Some "WH-ORIGIN"))
    = Return r /\
    nearest_spec (supplier_distance example_loads small_angle (NInt 0) (NInt 0))
                 [supplier_A; supplier_B; supplier_unlocated] r /\
    ((forall s p, In s [supplier_A; supplier_B; supplier_unlocated] ->
        get_coordinates_from_geojson example_loads (custom_geolocation s)
          <> Return (Some p)) ->
     r = None).
Proof.
  apply (@nearest_is_first_minimum example_loads small_angle example_site
           "WH-ORIGIN" (NInt 0) (NInt 0)
           [supplier_A; supplier_B; supplier_unlocated]).
  - discriminate.
  - exists (Some (point_text "[0, 0]")). split; reflexivity.
  - reflexivity.
Defined.

Lemma malformed_warehouse_returns_absent :
  fst (get_nearest_supplier example_loads small_angle example_site (Some "WH-MALFORMED"))
  = Return None /\
  ("WH-MALFORMED" <> EmptyString ->
   exists e,
     snd (get_nearest_supplier example_loads small_angle example_site
                               (Some "WH-MALFORMED"))
     = [warehouse_fetch "WH-MALFORMED"; warehouse_log "WH-MALFORMED" e]).
Proof.
  apply (@warehouse_failure_returns_absent example_loads small_angle example_site
           "WH-MALFORMED").
  right; left. exists "{not valid}".
  exists not_valid. split; reflexivity.
Defined.

Lemma malformed_supplier_is_skipped :
  fst (get_nearest_supplier example_loads small_angle
         (with_suppliers example_site [supplier_A; supplier_malformed; supplier_B])
         (Some "WH-ORIGIN")) =
  fst (get_nearest_supplier example_loads small_angle
         (with_suppliers
            (with_suppliers example_site [supplier_A; supplier_malformed; supplier_B])
            ([supplier_A] ++ [supplier_B]))
         (Some "WH-ORIGIN"))
  /\
  (exists r,
     fst (get_nearest_supplier example_loads small_angle
            (with_suppliers example_site [supplier_A; supplier_malformed; supplier_B])
            (Some "WH-ORIGIN")) = Return r /\
     nearest_spec (supplier_distance example_loads small_angle (NInt 0) (NInt 0))
                  ([supplier_A] ++ [supplier_B]) r)
  /\
  snd (get_nearest_supplier example_loads small_angle
         (with_suppliers example_site [supplier_A; supplier_malformed; supplier_B])
         (Some "WH-ORIGIN")) =
  [warehouse_fetch "WH-ORIGIN"; supplier_fetch]
    ++ scan_log example_loads small_angle (NInt 0) (NInt 0) [supplier_A]
    ++ [supplier_log supplier_malformed not_valid]
    ++ scan_log example_loads small_angle (NInt 0) (NInt 0) [supplier_B].
Proof.
  pose proof (@bad_supplier_is_skipped example_loads small_angle
                (with_suppliers example_site
                                [supplier_A; supplier_malformed; supplier_B])
                "WH-ORIGIN" [supplier_A] supplier_malformed [supplier_B]
                eq_refl ltac:(intros p; discriminate)) as [Hresult Hlog].
  split; [exact Hresult|].
  apply (Hlog (NInt 0) (NInt 0)).
  - discriminate.
  - exists (Some (point_text "[0, 0]")). split; reflexivity.
Defined.

Lemma fetch_failures_of_example_site :
  get_nearest_supplier example_loads small_angle example_site (Some "WH-DOWN")
  = (Return None, [warehouse_fetch "WH-DOWN"; warehouse_log "WH-DOWN" server_gone])
  /\
  get_nearest_supplier example_loads small_angle failing_site (Some "WH-ORIGIN")
  = (Raise server_gone, [warehouse_fetch "WH-ORIGIN"; supplier_fetch]).
Proof.
  split.
  - apply (proj1 (@warehouse_failure_soft_supplier_fetch_hard example_loads
                    small_angle example_site "WH-DOWN" server_gone
                    ltac:(discriminate))).
    apply fetch_failed. reflexivity.
  - apply (proj2 (@warehouse_failure_soft_supplier_fetch_hard example_loads
                    small_angle failing_site "WH-ORIGIN" server_gone
                    ltac:(discriminate)) (NInt 0, NInt 0)).
    + exists (Some (point_text "[0, 0]")). split; reflexivity.
    + reflexivity.
Defined.

(** A supplier whose longitude is an integer of 401 digits: its location
    yields a point, and the distance computation raises. *)
Lemma distance_fault_is_caught :
  exists final,
    supplier_loop example_loads small_angle (NInt 0) (NInt 0)
                  ([supplier_A] ++ supplier_far :: [supplier_B]) (None, inf) =
    (Return final,
     scan_log example_loads small_angle (NInt 0) (NInt 0) [supplier_A]
       ++ supplier_log supplier_far
            (OverflowError "int too large to convert to float")
       :: scan_log example_loads small_angle (NInt 0) (NInt 0) [supplier_B]) /\
    supplier_loop example_loads small_angle (NInt 0) (NInt 0)
                  ([supplier_A] ++ [supplier_B]) (None, inf) =
    (Return final,
     scan_log example_loads small_angle (NInt 0) (NInt 0) [supplier_A]
       ++ scan_log example_loads small_angle (NInt 0) (NInt 0) [supplier_B]) /\
    final = fold_left (scan_step example_loads small_angle (NInt 0) (NInt 0))
                      ([supplier_A] ++ [supplier_B]) (None, inf) /\
    (forall visited,
       scan_inv (supplier_distance example_loads small_angle (NInt 0) (NInt 0))
                visited (None, inf) ->
       scan_inv (supplier_distance example_loads small_angle (NInt 0) (NInt 0))
                (visited ++ [supplier_A] ++ [supplier_B]) final) /\
    ((None, inf) = ((None, inf) : scan_state) ->
     nearest_spec (supplier_distance example_loads small_angle (NInt 0) (NInt 0))
                  ([supplier_A] ++ [supplier_B]) (fst final) /\
     forall (frappe : site) (w : string),
       w <> EmptyString ->
       warehouse_located example_loads frappe w (NInt 0, NInt 0) ->
       get_all frappe "Supplier" [("disabled", 0)] ["name"; "custom_geolocation"]
         = Return ([supplier_A] ++ supplier_far :: [supplier_B]) ->
       fst (get_nearest_supplier example_loads small_angle frappe (Some w))
       = Return (fst final)).
Proof.
  apply (@supplier_exception_is_caught example_loads small_angle (NInt 0) (NInt 0)
           [supplier_A] supplier_far [supplier_B] (None, inf)
           (OverflowError "int too large to convert to float")).
  vm_compute. reflexivity.
Defined.

Lemma haversine_symmetric_zero_example :
  haversine_distance small_angle (NInt 0) (NInt 0) (NInt 0) (NInt 1) =
  haversine_distance small_angle (NInt 0) (NInt 1) (NInt 0) (NInt 0) /\
  haversine_distance small_angle (NFloat f_2_5) (NFloat f_48_8)
                     (NFloat f_2_5) (NFloat f_48_8) = Return zero.
Proof.
  split.
  - apply (proj1 (haversine_symmetric_zero_at_identical small_angle small_angle_laws)).
  - apply (proj2 (haversine_symmetric_zero_at_identical small_angle small_angle_laws)
                 (NFloat f_2_5) (NFloat f_48_8)); reflexivity.
Defined.

(** Two identical points whose longitude is an integer of 401 digits: the
    call raises instead of returning zero. *)
Lemma identical_huge_points_raise :
  haversine_distance small_angle (NInt huge) (NInt 0) (NInt huge) (NInt 0)
  = Raise (OverflowError "int too large to convert to float").
Proof. vm_compute. reflexivity. Qed.



(** * Further properties of the extractor *)

Lemma find_point_raises items e :
  find_point items = Raise e -> exists v, e = no_attribute v "get".
Proof.
  induction items as [|x items IH]; [discriminate|].
  destruct (feature_shaped x) eqn:Hx.
  - rewrite (@find_point_shaped x items Hx).
    destruct (feature_point x); [discriminate | exact IH].
  - rewrite (@find_point_misshaped x items Hx). intros [= <-]. eauto.
Qed.

Lemma find_point_some items p :
  find_point items = Return (Some p) ->
  exists pre feature post,
    items = pre ++ feature :: post /\
    Forall (fun x => feature_shaped x = true /\ feature_point x = None) pre /\
    feature_shaped feature = true /\ feature_point feature = Some p.
Proof.
  induction items as [|x items IH]; [discriminate|].
  destruct (feature_shaped x) eqn:Hx.
  - rewrite (@find_point_shaped x items Hx).
    destruct (feature_point x) as [q|] eqn:Hq.
    + intros [= <-]. exists [], x, items. repeat split; auto.
    + intros H. destruct (IH H) as (pre & f & post & -> & Hpre & Hf & Hp).
      exists (x :: pre), f, post. repeat split; auto.
  - rewrite (@find_point_misshaped x items Hx). discriminate.
Qed.

(** Once the scan has an answer or a fault, the items after it play no
    part. *)
Lemma find_point_decided items more :
  find_point items <> Return None ->
  find_point (items ++ more) = find_point items.
Proof.
  induction items as [|x items IH]; [intros H; exfalso; apply H; reflexivity|].
  cbn [app]. destruct (feature_shaped x) eqn:Hx.
  - rewrite !(@find_point_shaped x _ Hx).
    destruct (feature_point x); [reflexivity | exact IH].
  - rewrite !(@find_point_misshaped x _ Hx). reflexivity.
Qed.

Lemma find_point_tail x l1 l2 :
  find_point l1 = find_point l2 -> find_point (x :: l1) = find_point (x :: l2).
Proof.
  intros H. destruct (feature_shaped x) eqn:Hx.
  - rewrite !(@find_point_shaped x _ Hx). destruct (feature_point x); auto.
  - rewrite !(@find_point_misshaped x _ Hx). reflexivity.
Qed.

Lemma find_point_prefix pre l1 l2 :
  find_point l1 = find_point l2 -> find_point (pre ++ l1) = find_point (pre ++ l2).
Proof.
  intros H. induction pre as [|x pre IH]; [exact H|].
  cbn [app]. apply find_point_tail, IH.
Qed.

Lemma unwrap_steps_unwrap c' c : unwrap_steps c' c -> unwrap c' = unwrap c.
Proof.
  induction 1 as [c | c c1 c2 Hstep _ IH]; [reflexivity|].
  destruct Hstep. exact IH.
Qed.

Lemma point_feature_shaped coords : feature_shaped (point_feature coords) = true.
Proof. reflexivity. Qed.

Lemma point_feature_point coords :
  feature_point (point_feature coords) =
  match unwrap coords with
  | JList (lon :: lat :: _) =>
      match as_number lon, as_number lat with
      | Some x, Some y => Some (x, y)
      | _, _ => None
      end
  | _ => None
  end.
Proof. reflexivity. Qed.

Lemma features_is_dict data items :
  field data "features" = JList items -> is_dict data = true.
Proof.
  intros H. destruct (is_dict data) eqn:E; [reflexivity|].
  rewrite (@field_not_dict data "features" E) in H. discriminate.
Qed.

Lemma rewrapped_shaped feature feature' :
  rewrapped feature feature' ->
  feature_shaped feature = true /\ feature_shaped feature' = true.
Proof.
  intros (Hd & Hd' & Hg & Hg' & _). unfold feature_shaped.
  rewrite Hd, Hd', Hg, Hg', !orb_true_r. split; reflexivity.
Qed.

Lemma rewrapped_point feature feature' :
  rewrapped feature feature' -> feature_point feature' = feature_point feature.
Proof.
  intros (_ & _ & _ & _ & Ht & Hsteps). unfold feature_point.
  rewrite Ht, (unwrap_steps_unwrap _ _ Hsteps). reflexivity.
Qed.

Section ExtractorBehaviour.

Variable json_loads : string -> result json.

Lemma extract_list s data items :
  s <> EmptyString -> json_loads s = Return data ->
  field data "features" = JList items ->
  get_coordinates_from_geojson json_loads (Some s) = find_point items.
Proof.
  intros Hs Hd Hf.
  rewrite (@extract_dict json_loads s data Hs Hd (features_is_dict data items Hf)), Hf.
  destruct items; reflexivity.
Qed.

(** X1.  The exceptions of the extractor: the one the decoder raised, an
    [AttributeError] for a value without the method [get], or the
    [TypeError] of a features value that cannot be iterated.  The
    subscripts [data["features"]] and [feature["geometry"]] never fail. *)
Theorem extractor_exception_classes :
  forall (raw : option string) (e : exn),
    get_coordinates_from_geojson json_loads raw = Raise e ->
    (exists s, raw = Some s /\ s <> EmptyString /\ json_loads s = Raise e) \/
    (exists v, e = no_attribute v "get") \/
    (exists v, truthy v = true /\
               e = TypeError ("'" ++ type_name v ++ "' object is not iterable")%string).
Proof.
  intros raw e H. destruct raw as [s|]; [|discriminate].
  destruct (string_dec s EmptyString) as [->|Hs]; [discriminate|].
  destruct (json_loads s) as [data|e'] eqn:Hd.
  - destruct (is_dict data) eqn:Hdict.
    + rewrite (@extract_dict json_loads s data Hs Hd Hdict) in H.
      destruct (truthy (field data "features")) eqn:Ht; [|discriminate].
      destruct (field data "features") as [| | | |str|items|fields];
        cbn [py_iter bind] in H;
        try (right; right; eexists; split; [exact Ht | congruence]).
      * right; left. exact (find_point_raises _ _ H).
      * right; left. exact (find_point_raises _ _ H).
      * right; left. exact (find_point_raises _ _ H).
    + rewrite (@extract_not_dict json_loads s data Hs Hd Hdict) in H.
      right; left. exists data. congruence.
  - rewrite (@extract_decode_error json_loads s e' Hs Hd) in H.
    left. exists s. repeat split; [exact Hs | congruence].
Qed.

(** X2.  A point that the extractor returns is the point of a feature of
    the list: the text decodes to a mapping whose features value is a list,
    that feature yields the point, and every feature before it has the
    shape of a feature and yields none. *)
Theorem extracted_point_is_first_yield :
  forall (raw : option string) (p : point),
    get_coordinates_from_geojson json_loads raw = Return (Some p) ->
    exists s data pre feature post,
      raw = Some s /\ json_loads s = Return data /\
      field data "features" = JList (pre ++ feature :: post) /\
      Forall (fun x => feature_shaped x = true /\ forall q, ~ yields_point x q) pre /\
      yields_point feature p.
Proof.
  intros raw p H. destruct raw as [s|]; [|discriminate].
  destruct (string_dec s EmptyString) as [->|Hs]; [discriminate|].
  destruct (json_loads s) as [data|e'] eqn:Hd;
    [|rewrite (@extract_decode_error json_loads s e' Hs Hd) in H; discriminate].
  destruct (is_dict data) eqn:Hdict;
    [|rewrite (@extract_not_dict json_loads s data Hs Hd Hdict) in H; discriminate].
  rewrite (@extract_dict json_loads s data Hs Hd Hdict) in H.
  destruct (truthy (field data "features")) eqn:Ht; [|discriminate].
  assert (Hitems : exists items, field data "features" = JList items /\
                                 find_point items = Return (Some p)).
  { destruct (field data "features") as [| | | |str|items|fields];
      cbn [py_iter bind] in H; try discriminate.
    - destruct str as [|c str]; [discriminate|]. cbn [chars] in H.
      rewrite find_point_misshaped in H by reflexivity. discriminate.
    - eauto.
    - destruct fields as [|[k v] fields]; [discriminate|]. cbn [map] in H.
      rewrite find_point_misshaped in H by reflexivity. discriminate. }
  destruct Hitems as (items & Hf & Hfind).
  destruct (find_point_some _ _ Hfind) as (pre & f & post & -> & Hpre & _ & Hp).
  exists s, data, pre, f, post.
  split; [reflexivity|]. split; [exact Hd|]. split; [exact Hf|]. split.
  - eapply Forall_impl; [|exact Hpre]. intros x [Hx Hn]. split; [exact Hx|].
    apply feature_point_none, Hn.
  - apply feature_point_spec, Hp.
Qed.

(** X3.  A feature that has not the shape of a feature stops the scan: when
    every feature before it is skipped, the extractor raises the
    [AttributeError] of the value on which [get] was called -- the feature
    itself when it is no mapping, else its geometry -- whatever follows. *)
Theorem misshaped_feature_raises :
  forall (s : string) (data : json) (pre : list json) (feature : json)
         (post : list json),
    s <> EmptyString ->
    json_loads s = Return data ->
    field data "features" = JList (pre ++ feature :: post) ->
    Forall (fun x => feature_shaped x = true /\ forall q, ~ yields_point x q) pre ->
    feature_shaped feature = false ->
    get_coordinates_from_geojson json_loads (Some s) =
    Raise (no_attribute
             (if is_dict feature then field feature "geometry" else feature) "get").
Proof.
  intros s data pre feature post Hs Hd Hf Hpre Hbad.
  rewrite (extract_list s data _ Hs Hd Hf). clear Hf.
  induction Hpre as [|x pre [Hx Hn] _ IH]; cbn [app].
  - exact (@find_point_misshaped feature post Hbad).
  - rewrite (@find_point_shaped x _ Hx).
    replace (feature_point x) with (@None point)
      by (symmetry; apply feature_point_none, Hn).
    exact IH.
Qed.

(** X4.  The features after the first point, or after the first fault, are
    never examined: when the extractor does not return absent on a list of
    features, it gives the same outcome on any longer list that starts with
    it. *)
Theorem later_features_are_not_examined :
  forall (s s' : string) (data data' : json) (items more : list json),
    s <> EmptyString -> s' <> EmptyString ->
    json_loads s = Return data -> json_loads s' = Return data' ->
    field data "features" = JList items ->
    field data' "features" = JList (items ++ more) ->
    get_coordinates_from_geojson json_loads (Some s) <> Return None ->
    get_coordinates_from_geojson json_loads (Some s') =
    get_coordinates_from_geojson json_loads (Some s).
Proof.
  intros s s' data data' items more Hs Hs' Hd Hd' Hf Hf' Hsome.
  rewrite (extract_list s data _ Hs Hd Hf) in *.
  rewrite (extract_list s' data' _ Hs' Hd' Hf').
  apply find_point_decided, Hsome.
Qed.

(** X5.  Wrapping is ignored at every depth, with whatever follows the
    first element of a wrapping list: two documents whose lists of features
    differ in one feature give the same outcome when the two versions of
    that feature are mappings whose geometries are mappings with the same
    type, and the coordinates of one lead to those of the other by
    unwrapping steps.  The other keys of the documents, of the features and
    of the geometries play no part. *)
Theorem wrapping_is_ignored :
  forall (s s' : string) (data data' : json) (pre post : list json)
         (feature feature' : json),
    s <> EmptyString -> s' <> EmptyString ->
    json_loads s = Return data -> json_loads s' = Return data' ->
    field data "features" = JList (pre ++ feature :: post) ->
    field data' "features" = JList (pre ++ feature' :: post) ->
    rewrapped feature feature' ->
    get_coordinates_from_geojson json_loads (Some s') =
    get_coordinates_from_geojson json_loads (Some s).
Proof.
  intros s s' data data' pre post feature feature' Hs Hs' Hd Hd' Hf Hf' Hw.
  rewrite (extract_list s data _ Hs Hd Hf), (extract_list s' data' _ Hs' Hd' Hf').
  apply find_point_prefix.
  destruct (rewrapped_shaped _ _ Hw) as [Hshaped Hshaped'].
  rewrite (@find_point_shaped feature post Hshaped).
  rewrite (@find_point_shaped feature' post Hshaped').
  rewrite (rewrapped_point _ _ Hw). reflexivity.
Qed.

(** X6.  A features value that is not a list: a number or [True] cannot be
    iterated and raises [TypeError]; a non-empty string or mapping is
    iterated over strings, the first of which has no method [get]. *)
Theorem features_not_a_list :
  forall (s : string) (data : json),
    s <> EmptyString ->
    json_loads s = Return data ->
    is_dict data = true ->
    truthy (field data "features") = true ->
    match field data "features" with
    | JList _ => True
    | JStr _ | JDict _ =>
        exists c, get_coordinates_from_geojson json_loads (Some s)
                  = Raise (no_attribute (JStr c) "get")
    | v => get_coordinates_from_geojson json_loads (Some s)
           = Raise (TypeError ("'" ++ type_name v ++ "' object is not iterable")%string)
    end.
Proof.
  intros s data Hs Hd Hdict Ht.
  rewrite (@extract_dict json_loads s data Hs Hd Hdict), Ht.
  destruct (field data "features") as [| | | |str|items|fields];
    try discriminate; try reflexivity; try exact I.
  - destruct str as [|c str]; [discriminate|].
    exists (String c EmptyString). cbn [py_iter bind chars].
    apply find_point_misshaped. reflexivity.
  - destruct fields as [|[k v] fields]; [discriminate|].
    exists k. cbn [py_iter bind map fst].
    apply find_point_misshaped. reflexivity.
Qed.

End ExtractorBehaviour.

(** * Further properties of [get_nearest_supplier] *)

Lemma ltb_not_nan a b : ltb a b = true -> is_nan a = false /\ is_nan b = false.
Proof. destruct a, b; try discriminate; auto. Qed.

Lemma eqb_of_not_ltb a b :
  is_nan a = false -> is_nan b = false ->
  ltb a b = false -> ltb b a = false -> eqb a b = true.
Proof.
  unfold eqb, ltb, SFeqb, SFltb, SFcompare.
  destruct a as [[|]|[|]| |[|] ma ea], b as [[|]|[|]| |[|] mb eb];
    try discriminate; try reflexivity; intros _ _; compare_cases.
Qed.

Section Trace.

Variable json_loads : string -> result json.
Variable C : libm.

Lemma scan_log_shape lon1 lat1 suppliers :
  Forall (fun ev => is_data_access ev = false)
         (scan_log json_loads C lon1 lat1 suppliers) /\
  (List.length (scan_log json_loads C lon1 lat1 suppliers)
   <= List.length suppliers)%nat.
Proof.
  unfold scan_log. induction suppliers as [|s l [IH1 IH2]]; cbn [flat_map].
  - split; [constructor | apply le_n].
  - destruct (supplier_distance json_loads C lon1 lat1 s) as [r|e]; cbn [app List.length].
    + split; [exact IH1 | lia].
    + split; [constructor; [reflexivity | exact IH1] | lia].
Qed.

(** X7.  The calls of [get_nearest_supplier], in every case: none for an
    absent or empty id; the fetch of the location and one log entry when
    step 1 fails; the two fetches when the list of suppliers cannot be
    fetched; else the two fetches followed by log entries only, at most one
    for each supplier.  The record store is read at most twice, the
    location before the list, and never after a log entry. *)
Theorem calls_of_get_nearest_supplier :
  forall (frappe : site) (warehouse : option string),
    ((warehouse = None \/ warehouse = Some EmptyString) /\
     snd (get_nearest_supplier json_loads C frappe warehouse) = [])
    \/
    (exists w e,
       warehouse = Some w /\ warehouse_failure json_loads frappe w e /\
       snd (get_nearest_supplier json_loads C frappe warehouse)
       = [warehouse_fetch w; warehouse_log w e])
    \/
    (exists w e,
       warehouse = Some w /\
       get_all frappe "Supplier" [("disabled", 0)] ["name"; "custom_geolocation"]
         = Raise e /\
       snd (get_nearest_supplier json_loads C frappe warehouse)
       = [warehouse_fetch w; supplier_fetch])
    \/
    (exists w suppliers logs,
       warehouse = Some w /\
       get_all frappe "Supplier" [("disabled", 0)] ["name"; "custom_geolocation"]
         = Return suppliers /\
       snd (get_nearest_supplier json_loads C frappe warehouse)
       = warehouse_fetch w :: supplier_fetch :: logs /\
       Forall (fun ev => is_data_access ev = false) logs /\
       (List.length logs <= List.length suppliers)%nat).
Proof.
  intros frappe [w|]; [|left; split; [left|]; reflexivity].
  destruct (string_dec w EmptyString) as [->|Hw];
    [left; split; [right|]; reflexivity|].
  destruct (warehouse_located_or_failure json_loads frappe w)
    as [[[lon1 lat1] Hloc] | [e Hf]].
  - rewrite (@nearest_located json_loads C frappe w lon1 lat1 Hw Hloc).
    destruct (get_all frappe "Supplier" [("disabled", 0)]
                      ["name"; "custom_geolocation"]) as [suppliers|e] eqn:Hall.
    + right; right; right.
      exists w, suppliers, (scan_log json_loads C lon1 lat1 suppliers).
      destruct (scan_log_shape lon1 lat1 suppliers) as [H1 H2].
      repeat split; assumption.
    + right; right; left. exists w, e. repeat split.
  - right; left. exists w, e.
    rewrite (@nearest_failure json_loads C frappe w e Hw Hf). repeat split.
    exact Hf.
Qed.

(** X8.  Under the two assumptions of the model -- the exceptions are
    those of [exn], all of them subclasses of [Exception], the class that
    both [except] clauses name, and [frappe.log_error] returns without
    raising -- the only exception that reaches the caller is the one of the
    fetch of the enabled suppliers: [get_nearest_supplier] raises [e]
    exactly when the id is not empty, the warehouse is located and
    [frappe.get_all] raises [e].  (An exception outside [Exception], such
    as [KeyboardInterrupt], or one raised by the logger itself, is not
    covered.) *)
Theorem only_the_supplier_fetch_raises :
  forall (frappe : site) (warehouse : option string) (e : exn),
    fst (get_nearest_supplier json_loads C frappe warehouse) = Raise e <->
    exists w p,
      warehouse = Some w /\ w <> EmptyString /\
      warehouse_located json_loads frappe w p /\
      get_all frappe "Supplier" [("disabled", 0)] ["name"; "custom_geolocation"]
        = Raise e.
Proof.
  intros frappe warehouse e. split.
  - destruct warehouse as [w|]; [|discriminate].
    destruct (string_dec w EmptyString) as [->|Hw]; [discriminate|].
    destruct (warehouse_located_or_failure json_loads frappe w)
      as [[[lon1 lat1] Hloc] | [e' Hf]].
    + rewrite (@nearest_located json_loads C frappe w lon1 lat1 Hw Hloc).
      destruct (get_all frappe "Supplier" [("disabled", 0)]
                        ["name"; "custom_geolocation"]) as [suppliers|e'] eqn:Hall;
        cbn [fst]; [discriminate|].
      intros [= <-]. exists w, (lon1, lat1). auto.
    + rewrite (@nearest_failure json_loads C frappe w e' Hw Hf). discriminate.
  - intros (w & [lon1 lat1] & -> & Hw & Hloc & Hall).
    rewrite (@nearest_located json_loads C frappe w lon1 lat1 Hw Hloc), Hall.
    reflexivity.
Qed.

(** X9.  The distance reported does not depend on the order of the
    suppliers: for two orders of the same suppliers the results are both
    absent, or report distances that are equal as floats.  (The name may
    differ: among suppliers at the least distance the first one is
    named.) *)
Theorem distance_is_order_independent :
  forall (frappe : site) (w : string) (lon1 lat1 : number)
         (suppliers suppliers' : list supplier),
    w <> EmptyString ->
    warehouse_located json_loads frappe w (lon1, lat1) ->
    get_all frappe "Supplier" [("disabled", 0)] ["name"; "custom_geolocation"]
      = Return suppliers ->
    Permutation suppliers suppliers' ->
    exists r r',
      fst (get_nearest_supplier json_loads C frappe (Some w)) = Return r /\
      fst (get_nearest_supplier json_loads C (with_suppliers frappe suppliers')
                                (Some w)) = Return r' /\
      same_distance r r'.
Proof.
  intros frappe w lon1 lat1 suppliers suppliers' Hw Hloc Hall Hperm.
  assert (Hloc' : warehouse_located json_loads (with_suppliers frappe suppliers')
                                    w (lon1, lat1)) by exact Hloc.
  rewrite (@nearest_located json_loads C frappe w lon1 lat1 Hw Hloc), Hall.
  rewrite (@nearest_located json_loads C _ w lon1 lat1 Hw Hloc').
  cbn [with_suppliers get_all fst].
  pose proof (scan_result_spec json_loads C lon1 lat1 suppliers) as H.
  pose proof (scan_result_spec json_loads C lon1 lat1 suppliers') as H'.
  destruct (fst (fold_left (scan_step json_loads C lon1 lat1) suppliers (None, inf)))
    as [info|];
  destruct (fst (fold_left (scan_step json_loads C lon1 lat1) suppliers' (None, inf)))
    as [info'|];
    eexists; eexists; (split; [reflexivity|]); (split; [reflexivity|]);
    cbn [same_distance nearest_spec] in *.
  - destruct H as (i & s & Hi & _ & Hd & Hinf & Hmin & _).
    destruct H' as (i' & s' & Hi' & _ & Hd' & Hinf' & Hmin' & _).
    apply eqb_of_not_ltb.
    + apply (ltb_not_nan _ _ Hinf).
    + apply (ltb_not_nan _ _ Hinf').
    + apply (Hmin' s); [|exact Hd].
      apply (Permutation_in _ Hperm), (nth_error_In _ _ Hi).
    + apply (Hmin s'); [|exact Hd'].
      apply (Permutation_in _ (Permutation_sym Hperm)), (nth_error_In _ _ Hi').
  - destruct H as (i & s & Hi & _ & Hd & Hinf & _).
    rewrite (H' s _ (Permutation_in _ Hperm (nth_error_In _ _ Hi)) Hd) in Hinf.
    discriminate.
  - destruct H' as (i' & s' & Hi' & _ & Hd' & Hinf' & _).
    rewrite (H s' _ (Permutation_in _ (Permutation_sym Hperm)
                                     (nth_error_In _ _ Hi')) Hd') in Hinf'.
    discriminate.
  - exact I.
Qed.

Lemma scan_step_progress lon1 lat1 st s :
  scan_step json_loads C lon1 lat1 st s = st \/
  ltb (snd (scan_step json_loads C lon1 lat1 st s)) (snd st) = true.
Proof.
  unfold scan_step, select.
  destruct (supplier_distance json_loads C lon1 lat1 s) as [[d|]|e]; auto.
  destruct (ltb d (snd st)) eqn:E; auto.
Qed.

Lemma scan_progress lon1 lat1 more :
  forall st,
    fold_left (scan_step json_loads C lon1 lat1) more st = st \/
    ltb (snd (fold_left (scan_step json_loads C lon1 lat1) more st)) (snd st) = true.
Proof.
  induction more as [|s more IH]; intros st; [left; reflexivity|].
  cbn [fold_left].
  destruct (scan_step_progress lon1 lat1 st s) as [->|Hlt]; [apply IH|].
  right. destruct (IH (scan_step json_loads C lon1 lat1 st s)) as [->|Hlt'];
    [exact Hlt | exact (ltb_trans _ _ _ Hlt' Hlt)].
Qed.

(** X10.  Suppliers appended to the list either leave the result as it is or
    replace it by a strictly closer supplier: a result is never lost, and
    the distance reported never grows. *)
Theorem more_suppliers_only_improve :
  forall (frappe : site) (w : string) (lon1 lat1 : number)
         (suppliers more : list supplier) (info : nearest_info),
    w <> EmptyString ->
    warehouse_located json_loads frappe w (lon1, lat1) ->
    get_all frappe "Supplier" [("disabled", 0)] ["name"; "custom_geolocation"]
      = Return suppliers ->
    fst (get_nearest_supplier json_loads C frappe (Some w)) = Return (Some info) ->
    exists info',
      fst (get_nearest_supplier json_loads C
             (with_suppliers frappe (suppliers ++ more)) (Some w))
      = Return (Some info') /\
      (info' = info \/ ltb (distance info') (distance info) = true).
Proof.
  intros frappe w lon1 lat1 suppliers more info Hw Hloc Hall.
  assert (Hloc' : warehouse_located json_loads
                    (with_suppliers frappe (suppliers ++ more)) w (lon1, lat1))
    by exact Hloc.
  rewrite (@nearest_located json_loads C frappe w lon1 lat1 Hw Hloc), Hall.
  rewrite (@nearest_located json_loads C _ w lon1 lat1 Hw Hloc').
  cbn [with_suppliers get_all fst]. rewrite fold_left_app.
  pose proof (scan_inv_fold json_loads C lon1 lat1 suppliers) as Hinv.
  pose proof (scan_inv_fold json_loads C lon1 lat1 (suppliers ++ more)) as Hinv'.
  rewrite fold_left_app in Hinv'.
  set (st := fold_left (scan_step json_loads C lon1 lat1) suppliers (None, inf)) in *.
  intros [= Hst].
  destruct (scan_progress lon1 lat1 more st) as [Heq|Hlt].
  - rewrite Heq. exists info. split; [rewrite Hst; reflexivity | left; reflexivity].
  - unfold scan_inv in Hinv, Hinv'. rewrite Hst in Hinv. destruct Hinv as [Hm _].
    set (st' := fold_left (scan_step json_loads C lon1 lat1) more st) in *.
    destruct (fst st') as [info'|] eqn:E.
    + exists info'. split; [reflexivity|]. right.
      destruct Hinv' as [Hm' _]. rewrite <- Hm, <- Hm'. exact Hlt.
    + destruct Hinv' as [Hm' _]. rewrite Hm' in Hlt.
      assert (Hinf : ltb inf (snd st) = false)
        by (destruct (snd st) as [[|]|[|]| |[|] ? ?]; reflexivity).
      congruence.
Qed.

End Trace.

(** * Further properties of [haversine_distance] *)

Lemma safe_number_finite x : safe_number x = true -> finite_number x = true.
Proof. destruct x; auto. Qed.

Lemma safe_number_converts x :
  safe_number x = true -> exists f, py_float x = Return f.
Proof.
  destruct x as [n|b|f]; cbn [safe_number py_float]; [|eauto|eauto].
  intros H. apply Z.ltb_lt in H. rewrite (of_Z_in_range n H). eauto.
Qed.

Lemma binary_round_aux_opp s m e l :
  binary_round_aux prec emax (negb s) m e l =
  SFopp (binary_round_aux prec emax s m e l).
Proof.
  unfold binary_round_aux.
  destruct (shr_fexp prec emax m e l) as [mrs1 e1].
  destruct (shr_fexp prec emax _ e1 loc_Exact) as [mrs3 e3].
  destruct (shr_m mrs3); [reflexivity | | reflexivity].
  destruct (e3 <=? emax - prec); reflexivity.
Qed.

Lemma radians_opp x : radians (SFopp x) = SFopp (radians x).
Proof.
  unfold radians, degToRad, mul, SFmul.
  destruct x as [s|s| |s m e]; cbn [SFopp]; try (destruct s; reflexivity);
    try reflexivity.
  rewrite !xorb_false_r. apply binary_round_aux_opp.
Qed.

Lemma sub_opp_abs x y : SFabs (sub (SFopp x) (SFopp y)) = SFabs (sub x y).
Proof.
  unfold sub, SFsub.
  destruct x as [sx|sx| |sx mx ex], y as [sy|sy| |sy my ey]; cbn [SFopp];
    try (destruct sx, sy; reflexivity); try (destruct sx; reflexivity);
    try (destruct sy; reflexivity); try reflexivity.
  cbv zeta. rewrite <- binary_normalize_opp. f_equal. f_equal.
  destruct sx, sy; cbn [negb cond_Zopp]; lia.
Qed.

Lemma leb_not_ltb_eqb a b : leb a b = true -> ltb a b = false -> eqb b a = true.
Proof.
  unfold eqb, leb, ltb, SFeqb, SFleb, SFltb, SFcompare.
  destruct a as [[|]|[|]| |[|] ma ea], b as [[|]|[|]| |[|] mb eb];
    try discriminate; try reflexivity; compare_cases.
Qed.

Section HaversineBehaviour.

Variable C : libm.
Hypothesis laws : libm_laws C.

(** The outcomes of [haversine_distance] on finite inputs. *)
Lemma haversine_finite_outcome :
  forall lon1 lat1 lon2 lat2 : number,
    finite_number lon1 = true -> finite_number lat1 = true ->
    finite_number lon2 = true -> finite_number lat2 = true ->
    match haversine_distance C lon1 lat1 lon2 lat2 with
    | Return d => leb zero d = true
    | Raise e =>
        (e = OverflowError "int too large to convert to float" /\
         exists x, In x [lon1; lat1; lon2; lat2] /\ py_float x = Raise e) \/
        e = math_domain_error
    end.
Proof.
  intros lon1 lat1 lon2 lat2 H1 H2 H3 H4.
  rewrite haversine_distance_formula.
  destruct (py_float lon1) as [a|e] eqn:Ea; cbn [bind];
    [|left; split; [exact (py_float_raises _ _ Ea) |
                    exists lon1; split; [cbn [In]; tauto | exact Ea]]].
  destruct (py_float lat1) as [b|e] eqn:Eb; cbn [bind];
    [|left; split; [exact (py_float_raises _ _ Eb) |
                    exists lat1; split; [cbn [In]; tauto | exact Eb]]].
  destruct (py_float lon2) as [c|e] eqn:Ec; cbn [bind];
    [|left; split; [exact (py_float_raises _ _ Ec) |
                    exists lon2; split; [cbn [In]; tauto | exact Ec]]].
  destruct (py_float lat2) as [d|e] eqn:Ed; cbn [bind];
    [|left; split; [exact (py_float_raises _ _ Ed) |
                    exists lat2; split; [cbn [In]; tauto | exact Ed]]].
  destruct (py_float_finite _ _ H1 Ea) as [Fa Ba].
  destruct (py_float_finite _ _ H2 Eb) as [Fb Bb].
  destruct (py_float_finite _ _ H3 Ec) as [Fc Bc].
  destruct (py_float_finite _ _ H4 Ed) as [Fd Bd].
  pose proof (radians_finite _ Fa Ba) as Ra. pose proof (radians_finite _ Fb Bb) as Rb.
  pose proof (radians_finite _ Fc Bc) as Rc. pose proof (radians_finite _ Fd Bd) as Rd.
  pose proof (haversine_formula_outcome C laws
                (sub (radians d) (radians b)) (radians b) (radians d)
                (sub (radians c) (radians a))
                (sub_not_nan _ _ Rd Rb) (sub_not_nan _ _ Rc Ra) Rb Rd) as H.
  destruct (haversine_formula C (sub (radians d) (radians b)) (radians b)
                              (radians d) (sub (radians c) (radians a)));
    [exact H | right; exact H].
Qed.

(** X11.  Integer coordinates below [2 ** 1023] in magnitude never make the
    conversion overflow: for booleans, finite doubles and such integers,
    [haversine_distance] raises no [OverflowError]; it returns a float [d]
    with [0.0 <= d] or raises the [ValueError] of the [math] module. *)
Theorem haversine_without_overflow :
  forall lon1 lat1 lon2 lat2 : number,
    safe_number lon1 = true -> safe_number lat1 = true ->
    safe_number lon2 = true -> safe_number lat2 = true ->
    match haversine_distance C lon1 lat1 lon2 lat2 with
    | Return d => leb zero d = true
    | Raise e => e = math_domain_error
    end.
Proof.
  intros lon1 lat1 lon2 lat2 H1 H2 H3 H4.
  pose proof (haversine_finite_outcome lon1 lat1 lon2 lat2
                (safe_number_finite _ H1) (safe_number_finite _ H2)
                (safe_number_finite _ H3) (safe_number_finite _ H4)) as H.
  destruct (haversine_distance C lon1 lat1 lon2 lat2) as [d|e]; [exact H|].
  destruct H as [[_ (x & Hin & Hx)]|H]; [exfalso | exact H].
  assert (Hsafe : safe_number x = true).
  { cbn [In] in Hin. destruct Hin as [<-|[<-|[<-|[<-|[]]]]]; assumption. }
  destruct (safe_number_converts x Hsafe) as [f Hf]. congruence.
Qed.

(** X12.  Mirroring both longitudes across the prime meridian leaves the
    outcome unchanged, bit for bit: the longitudes enter the formula only
    through the magnitude of their difference. *)
Theorem haversine_mirrored_longitudes :
  forall (lon1 lon2 : float) (lat1 lat2 : number),
    haversine_distance C (mirror lon1) lat1 (mirror lon2) lat2 =
    haversine_distance C (NFloat lon1) lat1 (NFloat lon2) lat2.
Proof.
  intros lon1 lon2 lat1 lat2. rewrite !haversine_distance_formula.
  unfold mirror. cbn [py_float bind].
  destruct (py_float lat1) as [a|e]; [|reflexivity].
  destruct (py_float lat2) as [b|e]; [|reflexivity]. cbn [bind].
  rewrite !radians_opp.
  rewrite (haversine_formula_symmetric C laws
             (sub (radians b) (radians a)) (sub (radians b) (radians a))
             (radians a) (radians b)
             (sub (SFopp (radians lon2)) (SFopp (radians lon1)))
             (sub (radians lon2) (radians lon1))
             eq_refl (sub_opp_abs _ _)).
  apply (haversine_formula_symmetric C laws); reflexivity.
Qed.

End HaversineBehaviour.

Section ReportedDistance.

Variable json_loads : string -> result json.
Variable C : libm.
Hypothesis laws : libm_laws C.

(** X13.  When the warehouse and every located supplier have finite
    coordinates, the distance reported is never negative; and when some
    supplier is located at the very coordinates of the warehouse, a result
    is reported and its distance is zero. *)
Theorem reported_distance_is_nonneg_and_zero_when_colocated :
  forall (frappe : site) (w : string) (lon1 lat1 : number)
         (suppliers : list supplier),
    w <> EmptyString ->
    warehouse_located json_loads frappe w (lon1, lat1) ->
    finite_point (lon1, lat1) = true ->
    get_all frappe "Supplier" [("disabled", 0)] ["name"; "custom_geolocation"]
      = Return suppliers ->
    (forall s p, In s suppliers ->
       get_coordinates_from_geojson json_loads (custom_geolocation s)
         = Return (Some p) ->
       finite_point p = true) ->
    (forall info,
       fst (get_nearest_supplier json_loads C frappe (Some w)) = Return (Some info) ->
       leb zero (distance info) = true)
    /\
    (forall s f g,
       In s suppliers ->
       get_coordinates_from_geojson json_loads (custom_geolocation s)
         = Return (Some (lon1, lat1)) ->
       py_float lon1 = Return f -> py_float lat1 = Return g ->
       exists info,
         fst (get_nearest_supplier json_loads C frappe (Some w))
           = Return (Some info) /\
         eqb (distance info) zero = true).
Proof.
  intros frappe w lon1 lat1 suppliers Hw Hloc Hfin Hall Hsup.
  apply andb_prop in Hfin as [Hlon Hlat]. cbn [fst snd] in Hlon, Hlat.
  rewrite (@nearest_located json_loads C frappe w lon1 lat1 Hw Hloc), Hall.
  cbn [fst].
  pose proof (scan_result_spec json_loads C lon1 lat1 suppliers) as Hspec.
  assert (Hnonneg : forall info,
             fst (fold_left (scan_step json_loads C lon1 lat1) suppliers (None, inf))
               = Some info -> leb zero (distance info) = true).
  { intros info E. rewrite E in Hspec.
    destruct Hspec as (i & s & Hi & _ & Hd & _).
    unfold supplier_distance in Hd.
    destruct (get_coordinates_from_geojson json_loads (custom_geolocation s))
      as [[[lon2 lat2]|]|e] eqn:Hx; cbn [bind] in Hd; try discriminate.
    pose proof (Hsup s _ (nth_error_In _ _ Hi) Hx) as Hp.
    apply andb_prop in Hp as [Hlon2 Hlat2]. cbn [fst snd] in Hlon2, Hlat2.
    pose proof (haversine_finite_outcome C laws lon1 lat1 lon2 lat2
                                         Hlon Hlat Hlon2 Hlat2) as Hout.
    destruct (haversine_distance C lon1 lat1 lon2 lat2) as [d|e];
      cbn [bind] in Hd; [|discriminate].
    injection Hd as <-. exact Hout. }
  split.
  - intros info [= E]. exact (Hnonneg info E).
  - intros s f g Hin Hx Hf Hg.
    assert (Hd : supplier_distance json_loads C lon1 lat1 s = Return (Some zero)).
    { unfold supplier_distance. rewrite Hx. cbn [bind].
      rewrite (haversine_identical C laws lon1 lat1 Hlon Hlat), Hf, Hg.
      reflexivity. }
    destruct (fst (fold_left (scan_step json_loads C lon1 lat1) suppliers (None, inf)))
      as [info|] eqn:E.
    + exists info. split; [reflexivity|].
      destruct Hspec as (i & s' & _ & _ & _ & _ & Hmin & _).
      apply leb_not_ltb_eqb; [exact (Hnonneg info eq_refl) | exact (Hmin s _ Hin Hd)].
    + exfalso. pose proof (Hspec s _ Hin Hd) as Hcontra. discriminate Hcontra.
Qed.

End ReportedDistance.

(** * Further examples *)

Lemma scalar_features_exception :
  (exists s, Some scalar_features_text = Some s /\ s <> EmptyString /\
             more_loads s = Raise (TypeError "'int' object is not iterable")) \/
  (exists v, TypeError "'int' object is not iterable" = no_attribute v "get") \/
  (exists v, truthy v = true /\
             TypeError "'int' object is not iterable" =
             TypeError ("'" ++ type_name v ++ "' object is not iterable")%string).
Proof.
  apply (extractor_exception_classes more_loads (Some scalar_features_text)
           (TypeError "'int' object is not iterable")).
  reflexivity.
Defined.

Lemma point_before_number_is_first_yield :
  exists s data pre feature post,
    Some point_then_number_text = Some s /\ more_loads s = Return data /\
    field data "features" = JList (pre ++ feature :: post) /\
    Forall (fun x => feature_shaped x = true /\ forall q, ~ yields_point x q) pre /\
    yields_point feature (NInt 1, NInt 2).
Proof.
  apply (extracted_point_is_first_yield more_loads (Some point_then_number_text)
           (NInt 1, NInt 2)).
  reflexivity.
Defined.

Lemma stray_number_raises :
  get_coordinates_from_geojson example_loads (Some stray_number_text) =
  Raise (no_attribute (JInt 5) "get").
Proof.
  apply (misshaped_feature_raises example_loads stray_number_text stray_number_doc
           [] (JInt 5)
           [JDict [("geometry", JDict [("type", JStr "Point");
                                       ("coordinates", JList [JInt 1; JInt 2])])]]).
  - discriminate.
  - reflexivity.
  - reflexivity.
  - constructor.
  - reflexivity.
Defined.

Lemma number_after_point_is_not_examined :
  get_coordinates_from_geojson more_loads (Some point_then_number_text) =
  get_coordinates_from_geojson more_loads (Some point_only_text).
Proof.
  apply (later_features_are_not_examined more_loads
           point_only_text point_then_number_text
           point_only_doc point_then_number_doc
           [JDict [("geometry", JDict [("type", JStr "Point");
                                       ("coordinates", JList [JInt 1; JInt 2])])]]
           [JInt 5]).
  - discriminate.
  - discriminate.
  - reflexivity.
  - reflexivity.
  - reflexivity.
  - reflexivity.
  - discriminate.
Defined.

(** The wrapped point of a feature with an id, in a typed collection, and
    the plain point of a feature with properties, in a mapping without a
    type. *)
Lemma wrapped_point_with_siblings :
  get_coordinates_from_geojson wrapping_loads (Some wrapped_feature_text) =
  get_coordinates_from_geojson wrapping_loads (Some plain_feature_text).
Proof.
  apply (wrapping_is_ignored wrapping_loads plain_feature_text wrapped_feature_text
           plain_feature_doc wrapped_feature_doc [] [] plain_feature wrapped_feature).
  - discriminate.
  - discriminate.
  - reflexivity.
  - reflexivity.
  - reflexivity.
  - reflexivity.
  - split; [reflexivity|]. split; [reflexivity|]. split; [reflexivity|].
    split; [reflexivity|]. split; [reflexivity|].
    eapply unwrap_more; [constructor|].
    eapply unwrap_more; [constructor|]. apply unwrap_done.
Defined.

Lemma scalar_features_not_iterable :
  get_coordinates_from_geojson more_loads (Some scalar_features_text) =
  Raise (TypeError "'int' object is not iterable").
Proof.
  apply (features_not_a_list more_loads scalar_features_text scalar_features_doc).
  - discriminate.
  - reflexivity.
  - reflexivity.
  - reflexivity.
Defined.

Lemma reversed_suppliers_same_distance :
  exists r r',
    fst (get_nearest_supplier example_loads small_angle example_site (Some "WH-ORIGIN"))
      = Return r /\
    fst (get_nearest_supplier example_loads small_angle
           (with_suppliers example_site [supplier_unlocated; supplier_B; supplier_A])
           (Some "WH-ORIGIN")) = Return r' /\
    same_distance r r'.
Proof.
  apply (distance_is_order_independent example_loads small_angle example_site
           "WH-ORIGIN" (NInt 0) (NInt 0)
           [supplier_A; supplier_B; supplier_unlocated]
           [supplier_unlocated; supplier_B; supplier_A]).
  - discriminate.
  - exists (Some (point_text "[0, 0]")). split; reflexivity.
  - reflexivity.
  - apply (Permutation_rev [supplier_A; supplier_B; supplier_unlocated]).
Defined.

Lemma far_supplier_changes_nothing :
  exists info',
    fst (get_nearest_supplier example_loads small_angle
           (with_suppliers example_site
              ([supplier_A; supplier_B; supplier_unlocated] ++ [supplier_far]))
           (Some "WH-ORIGIN")) = Return (Some info') /\
    (info' = {| nearest_name := "SUP-A";
                distance := S754_finite false 7824647346905068 (-46) |} \/
     ltb (distance info') (S754_finite false 7824647346905068 (-46)) = true).
Proof.
  apply (more_suppliers_only_improve example_loads small_angle example_site
           "WH-ORIGIN" (NInt 0) (NInt 0)
           [supplier_A; supplier_B; supplier_unlocated] [supplier_far]
           {| nearest_name := "SUP-A";
              distance := S754_finite false 7824647346905068 (-46) |}).
  - discriminate.
  - exists (Some (point_text "[0, 0]")). split; reflexivity.
  - reflexivity.
  - vm_compute. reflexivity.
Defined.

Lemma small_integers_do_not_overflow :
  match haversine_distance small_angle (NInt 0) (NInt 0) (NInt 180) (NBool true) with
  | Return d => leb zero d = true
  | Raise e => e = math_domain_error
  end.
Proof.
  apply (haversine_without_overflow small_angle small_angle_laws
           (NInt 0) (NInt 0) (NInt 180) (NBool true)); reflexivity.
Defined.

Lemma mirrored_longitudes_example :
  haversine_distance small_angle (mirror f_2_5) (NInt 1) (mirror f_48_8) (NInt 0) =
  haversine_distance small_angle (NFloat f_2_5) (NInt 1) (NFloat f_48_8) (NInt 0).
Proof.
  apply (haversine_mirrored_longitudes small_angle small_angle_laws).
Defined.

Lemma colocated_supplier_reports_zero :
  (forall info,
     fst (get_nearest_supplier example_loads small_angle
            (with_suppliers example_site [supplier_A; supplier_origin])
            (Some "WH-ORIGIN")) = Return (Some info) ->
     leb zero (distance info) = true)
  /\
  (forall s f g,
     In s [supplier_A; supplier_origin] ->
     get_coordinates_from_geojson example_loads (custom_geolocation s)
       = Return (Some (NInt 0, NInt 0)) ->
     py_float (NInt 0) = Return f -> py_float (NInt 0) = Return g ->
     exists info,
       fst (get_nearest_supplier example_loads small_angle
              (with_suppliers example_site [supplier_A; supplier_origin])
              (Some "WH-ORIGIN")) = Return (Some info) /\
       eqb (distance info) zero = true).
Proof.
  apply (reported_distance_is_nonneg_and_zero_when_colocated
           example_loads small_angle small_angle_laws
           (with_suppliers example_site [supplier_A; supplier_origin])
           "WH-ORIGIN" (NInt 0) (NInt 0) [supplier_A; supplier_origin]).
  - discriminate.
  - exists (Some (point_text "[0, 0]")). split; reflexivity.
  - reflexivity.
  - reflexivity.
  - intros s p [<-|[<-|[]]] H; vm_compute in H; injection H as <-; reflexivity.
Defined.
